(** * Vehicle claims console: pipeline, priority label and claim record store

    A shallow embedding of [app.py]: the text-generation call [call_groq],
    the four agents and [run_claim_pipeline_groq], [extract_priority_label],
    the session state with [save_claim_record] and [get_sorted_claims], and
    the handlers of [main], [render_history] and [render_claim_intelligence]
    that change the state.

    Python [str] values are Rocq strings.  [str.lower] and [str.strip] are
    modelled on the ASCII range (letters A-Z, the ASCII white space), other
    characters are carried unchanged. *)

From Stdlib Require Import Ascii String ZArith QArith Sorted Permutation.
From Stdlib Require Import DecimalString DecimalPos DecimalZ.
From stdpp Require Import base list strings.

Local Open Scope Z_scope.

(** ** Python strings *)

Module PyStr.

Definition dq : string := String (Ascii.ascii_of_nat 34) EmptyString.
Definition nl : string := String (Ascii.ascii_of_nat 10) EmptyString.

(** [q s] is [s] between double quotes, [fence s] is [s] between the
    triple quotes the prompts put around free text. *)
Definition q (s : string) : string := dq +:+ s +:+ dq.
Definition fence (s : string) : string :=
  dq +:+ dq +:+ dq +:+ s +:+ dq +:+ dq +:+ dq.

(** The text of a triple-quoted literal whose lines are [ls]: it opens
    with a line break and every line ends with one. *)
Fixpoint text_block (ls : list string) : string :=
  match ls with
  | [] => nl
  | l :: ls' => nl +:+ l +:+ text_block ls'
  end.

Definition lower_char (c : ascii) : ascii :=
  let n := Ascii.nat_of_ascii c in
  if ((65 <=? n)%nat && (n <=? 90)%nat)%bool
  then Ascii.ascii_of_nat (n + 32)
  else c.

(** [s.lower()] *)
Fixpoint lower (s : string) : string :=
  match s with
  | EmptyString => EmptyString
  | String c s' => String (lower_char c) (lower s')
  end.

(** [c.isspace()] for an ASCII character: tab, line feed, vertical tab,
    form feed, carriage return, the four separators 28-31 and space. *)
Definition isspace (c : ascii) : bool :=
  let n := Ascii.nat_of_ascii c in
  (((9 <=? n)%nat && (n <=? 13)%nat) || ((28 <=? n)%nat && (n <=? 32)%nat))%bool.

Fixpoint lstrip (s : string) : string :=
  match s with
  | EmptyString => EmptyString
  | String c s' => if isspace c then lstrip s' else s
  end.

Fixpoint rstrip (s : string) : string :=
  match s with
  | EmptyString => EmptyString
  | String c s' =>
      match rstrip s' with
      | EmptyString => if isspace c then EmptyString else String c EmptyString
      | r => String c r
      end
  end.

(** [s.strip()] *)
Definition strip (s : string) : string := rstrip (lstrip s).

(** Truth value of a string: [if s:] *)
Definition truthy (s : string) : bool :=
  match s with EmptyString => false | String _ _ => true end.

(** [needle in hay] *)
Fixpoint contains (needle hay : string) : bool :=
  match hay with
  | EmptyString => String.prefix needle EmptyString
  | String _ hay' => (String.prefix needle hay || contains needle hay')%bool
  end.

(** [sep.join(parts)] with the empty separator *)
Fixpoint join (parts : list string) : string :=
  match parts with
  | [] => EmptyString
  | p :: ps => p +:+ join ps
  end.

End PyStr.

(** ** Priority label (lines 192-200) *)

Definition extract_priority_label (triage_md : string) : string :=
  let txt := PyStr.lower triage_md in
  if PyStr.contains "high" txt then "HIGH"
  else if PyStr.contains "medium" txt then "MEDIUM"
  else if PyStr.contains "low" txt then "LOW"
  else "UNSPECIFIED".

(** ** Requests and responses of the chat-completions endpoint *)

Record ChatMessage := { role : string; content : string }.

Record Request := {
  model : string;
  messages : list ChatMessage;
  temperature : Q
}.

(** A part of a list-valued message content; [part_text] is [None] when the
    part has no [text] attribute or the attribute is [None]. *)
Record Part := { part_text : option string }.

(** What [getattr] finds for the content attribute of a message; the
    default for an absent attribute is the empty string. *)
Inductive Content :=
| ContentAbsent
| ContentNone
| ContentStr (s : string)
| ContentList (parts : list Part).

Record Message := { message_content : Content }.
Record Choice := { message : Message }.
Record ChatCompletion := { choices : list Choice }.

(** The endpoint raises or returns a completion. *)
Inductive ApiResult :=
| Raises (e : string)
| Returns (resp : ChatCompletion).

(** The exceptions of the model: what the client raises, the index error of
    [resp.choices[0]] on an empty list, and the key error of a dictionary. *)
Inductive exn :=
| ClientError (e : string)
| IndexError
| KeyError (k : string).

(** ** Data of the application *)

Module Overview.
Record t := {
  claim_id : string;
  claim_type : string;
  channel : string;
  car_model : string;
  has_photos : bool
}.
End Overview.

Module Result.
Record t := {
  overview : Overview.t;
  triage : string;
  damage : string;
  evidence : string;
  settlement : string
}.
End Result.

Module Claim.
Record t := {
  id : string;
  customer_name : string;
  customer_contact : string;
  type : string;
  channel : string;
  car_model : string;
  description : string;
  status : string;
  priority : string;
  triage : string;
  damage : string;
  evidence : string;
  settlement : string;
  overview : Overview.t;
  created_at : Z;
  created_idx : Z
}.

(** [claim["status"] = v] *)
Definition with_status (v : string) (c : t) : t :=
  {| id := id c; customer_name := customer_name c;
     customer_contact := customer_contact c; type := type c;
     channel := channel c; car_model := car_model c;
     description := description c; status := v; priority := priority c;
     triage := triage c; damage := damage c; evidence := evidence c;
     settlement := settlement c; overview := overview c;
     created_at := created_at c; created_idx := created_idx c |}.
End Claim.

(** The fields of the new-claim form when it is submitted; [photo] is
    [photo is not None]. *)
Module Form.
Record t := {
  claim_id : string;
  customer_name : string;
  customer_contact : string;
  claim_type : string;
  channel : string;
  car_model : string;
  description : string;
  photo : bool
}.
End Form.

(** ** Python dictionaries with string keys

    A dictionary keeps its keys in insertion order; assigning to a key that
    is present keeps the key's position. *)

Module Dict.
Section Dict.
Context {V : Type}.

Fixpoint get (k : string) (d : list (string * V)) : option V :=
  match d with
  | [] => None
  | (k', v) :: d' => if String.eqb k k' then Some v else get k d'
  end.

(** [d[k] = v] *)
Fixpoint set (k : string) (v : V) (d : list (string * V)) : list (string * V) :=
  match d with
  | [] => [(k, v)]
  | (k', v') :: d' =>
      if String.eqb k k' then (k, v) :: d' else (k', v') :: set k v d'
  end.

(** [del d[k]]; [None] is the KeyError. *)
Fixpoint del (k : string) (d : list (string * V)) : option (list (string * V)) :=
  match d with
  | [] => None
  | (k', v') :: d' =>
      if String.eqb k k' then Some d'
      else match del k d' with
           | Some d'' => Some ((k', v') :: d'')
           | None => None
           end
  end.

Definition keys (d : list (string * V)) : list string := fst <$> d.
Definition values (d : list (string * V)) : list V := snd <$> d.
End Dict.
End Dict.

(** ** State

    [claims_db], [active_claim_id], [next_idx], [customer_msg] and
    [send_status] are the keys of [st.session_state].  The values of
    [claims_db] are references: [objects] holds the record dictionaries, a
    reference is a position in it.  [sent] is the list of the requests made
    to the endpoint so far. *)

Record State := {
  objects : list Claim.t;
  claims_db : list (string * nat);
  active_claim_id : option string;
  next_idx : Z;
  customer_msg : string;
  send_status : string;
  sent : list Request
}.

(** [init_state] in a session that has none of the keys yet. *)
Definition init_state : State :=
  {| objects := []; claims_db := []; active_claim_id := None; next_idx := 0;
     customer_msg := ""; send_status := ""; sent := [] |}.

(** ** Computations: state and exceptions

    A state change made before an exception is raised stays. *)

Definition Py (A : Type) : Type := State -> (exn + A) * State.

Definition ret {A} (a : A) : Py A := fun st => (inr a, st).
Definition raise {A} (e : exn) : Py A := fun st => (inl e, st).
Definition bind {A B} (c : Py A) (k : A -> Py B) : Py B :=
  fun st =>
    match c st with
    | (inl e, st') => (inl e, st')
    | (inr a, st') => k a st'
    end.
Definition gets {A} (f : State -> A) : Py A := fun st => (inr (f st), st).
Definition modify (f : State -> State) : Py unit := fun st => (inr tt, f st).

Declare Scope py_scope.
Delimit Scope py_scope with py.
Notation "x <- c ;; k" := (bind c (fun x => k))
  (at level 100, c at next level, right associativity) : py_scope.
Notation "c ;;; k" := (bind c (fun _ => k))
  (at level 100, right associativity) : py_scope.

(** State updates *)

Definition log_request (r : Request) (st : State) : State :=
  {| objects := objects st; claims_db := claims_db st;
     active_claim_id := active_claim_id st; next_idx := next_idx st;
     customer_msg := customer_msg st; send_status := send_status st;
     sent := sent st ++ [r] |}.

Definition set_objects (o : list Claim.t) (st : State) : State :=
  {| objects := o; claims_db := claims_db st;
     active_claim_id := active_claim_id st; next_idx := next_idx st;
     customer_msg := customer_msg st; send_status := send_status st;
     sent := sent st |}.

Definition set_claims_db (d : list (string * nat)) (st : State) : State :=
  {| objects := objects st; claims_db := d;
     active_claim_id := active_claim_id st; next_idx := next_idx st;
     customer_msg := customer_msg st; send_status := send_status st;
     sent := sent st |}.

Definition set_active_claim_id (a : option string) (st : State) : State :=
  {| objects := objects st; claims_db := claims_db st;
     active_claim_id := a; next_idx := next_idx st;
     customer_msg := customer_msg st; send_status := send_status st;
     sent := sent st |}.

Definition set_next_idx (n : Z) (st : State) : State :=
  {| objects := objects st; claims_db := claims_db st;
     active_claim_id := active_claim_id st; next_idx := n;
     customer_msg := customer_msg st; send_status := send_status st;
     sent := sent st |}.

Definition set_customer_msg (m : string) (st : State) : State :=
  {| objects := objects st; claims_db := claims_db st;
     active_claim_id := active_claim_id st; next_idx := next_idx st;
     customer_msg := m; send_status := send_status st;
     sent := sent st |}.

Definition set_send_status (m : string) (st : State) : State :=
  {| objects := objects st; claims_db := claims_db st;
     active_claim_id := active_claim_id st; next_idx := next_idx st;
     customer_msg := customer_msg st; send_status := m;
     sent := sent st |}.

(** ** The text-generation client and the agents (lines 29-185) *)

Definition default_temperature : Q := 3 # 10.

(** [str(content)] after the list case of [call_groq] has been joined. *)
Definition content_text (c : Content) : string :=
  match c with
  | ContentAbsent => ""
  | ContentNone => "None"
  | ContentStr s => s
  | ContentList parts =>
      PyStr.join
        (omap (fun p =>
                 match part_text p with
                 | Some t => if PyStr.truthy t then Some t else None
                 | None => None
                 end) parts)
  end.

Definition yes_no (b : bool) : string := if b then "Yes" else "No".

Section Client.

(** The endpoint: what the call returns, given the requests made before
    it and the request itself. *)
Variable endpoint : list Request -> Request -> ApiResult.

Definition call_groq (system_prompt user_prompt : string) (temperature : Q)
  : Py string :=
  fun st =>
    let req := {| model := "llama-3.1-8b-instant";
                  messages := [ {| role := "system"; content := system_prompt |};
                                {| role := "user"; content := user_prompt |} ];
                  temperature := temperature |} in
    let st' := log_request req st in
    match endpoint (sent st) req with
    | Raises e => (inl (ClientError e), st')
    | Returns resp =>
        match choices resp with
        | [] => (inl IndexError, st')
        | c :: _ =>
            let msg := message c in
            let content := message_content msg in
            (inr (PyStr.strip (content_text content)), st')
        end
    end.

Definition triage_prompt (claim_type description : string) : string :=
  PyStr.text_block
    [ "You will triage a motor insurance claim.";
      "";
      "Claim type: " +:+ claim_type;
      "Customer incident description:";
      PyStr.fence description;
      "";
      "Tasks:";
      "1. Classify:";
      "   - severity: one of [" +:+ PyStr.q "Low" +:+ ", " +:+ PyStr.q "Medium"
        +:+ ", " +:+ PyStr.q "High" +:+ "]";
      "   - priority: one of [" +:+ PyStr.q "P1 – Urgent" +:+ ", "
        +:+ PyStr.q "P2 – Standard" +:+ ", " +:+ PyStr.q "P3 – Low" +:+ "]";
      "   - expected_cycle_time: short phrase (e.g. " +:+ PyStr.q "1–2 days"
        +:+ ", " +:+ PyStr.q "3–5 days" +:+ ").";
      "";
      "2. Explain your reasoning in 2–3 lines, in simple language.";
      "";
      "Return the answer as concise markdown bullet points." ].

Definition triage_agent_groq (claim_type description : string) : Py string :=
  let system := "You are a precise vehicle insurance triage engine." in
  let user := triage_prompt claim_type description in
  call_groq system user default_temperature.

Definition damage_prompt (claim_type car_model description : string)
    (has_photos : bool) : string :=
  PyStr.text_block
    [ "Estimate likely vehicle damage for this claim.";
      "";
      "Claim type: " +:+ claim_type;
      "Car make & model (with year if given): " +:+ car_model;
      "Photos attached: " +:+ yes_no has_photos;
      "Customer description:";
      PyStr.fence description;
      "";
      "Instructions:";
      "- Consider that repair costs vary by segment:";
      "  - Entry/budget cars (e.g. Alto, WagonR, Tiago) → cheaper parts & labour";
      "  - Mid-range (e.g. Baleno, i20, City) → moderate";
      "  - Premium/luxury (e.g. BMW, Mercedes, Audi) → high repair cost";
      "- Use this to pick a realistic repair cost band.";
      "";
      "Return:";
      "- likely damaged parts";
      "- type of damage (scratches, dents, broken components, glass damage, etc.)";
      "- rough repair cost range in INR (e.g. " +:+ PyStr.q "₹10,000–₹15,000" +:+ ")";
      "- damage category: one of [" +:+ PyStr.q "Minor" +:+ ", "
        +:+ PyStr.q "Moderate" +:+ ", " +:+ PyStr.q "Severe" +:+ "]";
      "- short notes (mention if photos would help confirm or refine estimate).";
      "";
      "Return a short structured markdown answer." ].

Definition damage_agent_groq (claim_type car_model description : string)
    (has_photos : bool) : Py string :=
  let system := "You are an auto damage estimator for Indian private passenger vehicles." in
  let user := damage_prompt claim_type car_model description has_photos in
  call_groq system user default_temperature.

Definition evidence_prompt (description : string) (has_photos : bool) : string :=
  PyStr.text_block
    [ "You will help a claims adjuster quickly understand the case and decide what to ask the customer.";
      "";
      "Customer's description of the accident:";
      PyStr.fence description;
      "";
      "Customer has already attached some photos: " +:+ yes_no has_photos;
      "";
      "Return:";
      "1. A 3–4 line summary suitable for an internal adjuster.";
      "2. A bullet list of MOST important missing information / documents to request next, such as:";
      "   - more photos (mention which angles if needed)";
      "   - police report / FIR / challan";
      "   - workshop estimate";
      "   - injury details";
      "   - any other key info.";
      "";
      "Return in markdown with headings:";
      "- Summary";
      "- Missing information / documents" ].

Definition evidence_agent_groq (description : string) (has_photos : bool)
  : Py string :=
  let system := "You are an insurance claims evidence and documentation assistant." in
  let user := evidence_prompt description has_photos in
  call_groq system user default_temperature.

Definition settlement_prompt (claim_type car_model description : string) : string :=
  PyStr.text_block
    [ "You must suggest an initial settlement approach for this motor claim.";
      "";
      "Claim type: " +:+ claim_type;
      "Car make & model: " +:+ car_model;
      "Customer description:";
      PyStr.fence description;
      "";
      "Assume:";
      "- Private car comprehensive policy";
      "- Usual deductibles apply";
      "- Standard Indian repair market";
      "";
      "Consider car segment:";
      "- For budget cars, typical repairs are cheaper.";
      "- For premium/luxury cars, parts & labour are significantly more expensive.";
      "";
      "Return:";
      "- Is this suitable for fast-track / straight-through processing? (yes/no + why)";
      "- A reasonable settlement RANGE in INR (e.g. " +:+ PyStr.q "₹15,000–₹20,000" +:+ ")";
      "- 2–3 key decision factors you used";
      "- Any risks or caveats (e.g. missing documents, unclear liability, potential fraud).";
      "";
      "Return in clear markdown bullet points, no legal jargon." ].

Definition settlement_agent_groq (claim_type car_model description : string)
  : Py string :=
  let system := "You are a senior, fair motor insurance claims adjuster in India." in
  let user := settlement_prompt claim_type car_model description in
  call_groq system user default_temperature.

Definition customer_message_prompt (claim_id description evidence_markdown : string)
  : string :=
  PyStr.text_block
    [ "You are helping a motor insurance company talk to a customer.";
      "";
      "Claim ID: " +:+ claim_id;
      "";
      "Customer's original description of the accident:";
      PyStr.fence description;
      "";
      "Internal notes from the Evidence Agent (includes missing information section):";
      PyStr.fence evidence_markdown;
      "";
      "Write a short message that:";
      "- thanks the customer";
      "- clearly lists what documents/photos/details they need to share";
      "- is in simple, friendly English";
      "- is suitable for WhatsApp or email";
      "- is under 120 words.";
      "";
      "Do NOT include headings or technical language.";
      "Only return the message body." ].

Definition customer_message_agent_groq
    (claim_id description evidence_markdown : string) : Py string :=
  let system := "You draft short, polite messages for insurance policyholders." in
  let user := customer_message_prompt claim_id description evidence_markdown in
  call_groq system user default_temperature.

End Client.

(** ** Pipeline (lines 203-230) *)

Section Pipeline.

Variable endpoint : list Request -> Request -> ApiResult.

Definition run_claim_pipeline_groq
    (claim_id claim_type channel car_model description : string)
    (has_photos : bool) : Py Result.t :=
  (triage <- triage_agent_groq endpoint claim_type description ;;
   damage <- damage_agent_groq endpoint claim_type car_model description has_photos ;;
   evidence <- evidence_agent_groq endpoint description has_photos ;;
   settlement <- settlement_agent_groq endpoint claim_type car_model description ;;
   let overview :=
     {| Overview.claim_id := claim_id;
        Overview.claim_type := claim_type;
        Overview.channel := channel;
        Overview.car_model := car_model;
        Overview.has_photos := has_photos |} in
   ret {| Result.overview := overview;
          Result.triage := triage;
          Result.damage := damage;
          Result.evidence := evidence;
          Result.settlement := settlement |})%py.

End Pipeline.

(** ** Claim records (lines 246-290) *)

(** A new dictionary object; the result is the reference to it. *)
Definition new_object (c : Claim.t) : Py nat :=
  fun st => (inr (length (objects st)), set_objects (objects st ++ [c]) st).

(** The object behind a reference. *)
Definition deref (st : State) (ref : nat) : option Claim.t := objects st !! ref.

(** [now] is the value [datetime.now()] returns at line 276. *)
Definition save_claim_record
    (claim_id customer_name customer_contact claim_type channel car_model
       description : string)
    (pipeline_result : Result.t) (status : string) (now : Z) : Py unit :=
  (modify (fun st => set_next_idx (next_idx st + 1) st) ;;;
   let triage_md := Result.triage pipeline_result in
   let priority := extract_priority_label triage_md in
   idx <- gets next_idx ;;
   ref <- new_object
     {| Claim.id := claim_id;
        Claim.customer_name := customer_name;
        Claim.customer_contact := customer_contact;
        Claim.type := claim_type;
        Claim.channel := channel;
        Claim.car_model := car_model;
        Claim.description := description;
        Claim.status := status;
        Claim.priority := priority;
        Claim.triage := triage_md;
        Claim.damage := Result.damage pipeline_result;
        Claim.evidence := Result.evidence pipeline_result;
        Claim.settlement := Result.settlement pipeline_result;
        Claim.overview := Result.overview pipeline_result;
        Claim.created_at := now;
        Claim.created_idx := idx |} ;;
   modify (fun st => set_claims_db (Dict.set claim_id ref (claims_db st)) st))%py.

(** [sorted(xs, key=key, reverse=True)]: descending by key, elements with
    equal keys stay in the order they have in [xs]. *)
Fixpoint insert_reverse {A} (key : A -> Z) (x : A) (l : list A) : list A :=
  match l with
  | [] => [x]
  | y :: l' => if (key y <=? key x)%Z then x :: y :: l' else y :: insert_reverse key x l'
  end.

Fixpoint sorted_reverse {A} (key : A -> Z) (xs : list A) : list A :=
  match xs with
  | [] => []
  | x :: xs' => insert_reverse key x (sorted_reverse key xs')
  end.

(** [st.session_state.claims_db.values()], each reference followed. *)
Definition claims_values (st : State) : list Claim.t :=
  omap (deref st) (Dict.values (claims_db st)).

Definition get_sorted_claims (st : State) : list Claim.t :=
  sorted_reverse Claim.created_idx (claims_values st).

(** [st.session_state.claims_db[cid]], the reference followed; [None] when
    [cid] is not a key. *)
Definition get_claim (cid : string) (st : State) : option Claim.t :=
  match Dict.get cid (claims_db st) with
  | Some ref => deref st ref
  | None => None
  end.

(** ** What the user interface does to the state *)

Inductive Feedback :=
| Error (msg : string)
| Success (msg : string)
| Info (msg : string)
| Silent.

(** [del st.session_state.claims_db[cid]] and the two resets that follow
    it (lines 396-400). *)
Definition delete_claim (cid : string) : Py unit :=
  (db <- gets claims_db ;;
   match Dict.del cid db with
   | None => raise (KeyError cid)
   | Some db' =>
       modify (set_claims_db db') ;;;
       modify (set_send_status "") ;;;
       modify (set_customer_msg "")
   end)%py.

(** The open button of a history card (lines 390-394). *)
Definition open_claim (cid : string) : Py unit :=
  (modify (set_active_claim_id (Some cid)) ;;;
   modify (set_customer_msg "") ;;;
   modify (set_send_status ""))%py.

(** [claim = st.session_state.claims_db[cid]], then [claim["status"] = v]:
    the assignment goes through the reference to the object the dictionary
    holds (lines 410, 463 and 471). *)
Definition set_status (cid : string) (v : string) : Py unit :=
  (db <- gets claims_db ;;
   match Dict.get cid db with
   | None => raise (KeyError cid)
   | Some claim =>
       modify (fun st => set_objects (alter (Claim.with_status v) claim (objects st)) st)
   end)%py.

Inductive ReviewButton :=
| GenerateCustomerMessage
| SimulateSendMessage
| SaveAsReviewing
| MarkAsCompleted
| StartANewClaim.

Definition no_active_claim : string :=
  "No active claim selected. File a new claim or select one from History.".

Definition clear_selection : Py unit :=
  (modify (set_active_claim_id None) ;;;
   modify (set_customer_msg "") ;;;
   modify (set_send_status ""))%py.

Section Handlers.

Variable endpoint : list Request -> Request -> ApiResult.

(** [render_claim_intelligence] (lines 404-482) when [clicked] is the button
    pressed in this run, if any.  Past the guard the id is a key of
    [claims_db], so reading the claim raises nothing in a state in order. *)
Definition render_claim_intelligence (clicked : option ReviewButton) : Py Feedback :=
  (active <- gets active_claim_id ;;
   db <- gets claims_db ;;
   match active with
   | None => ret (Info no_active_claim)
   | Some cid =>
       if (negb (PyStr.truthy cid) || negb (bool_decide (is_Some (Dict.get cid db))))%bool
       then ret (Info no_active_claim)
       else
         match clicked with
         | Some GenerateCustomerMessage =>
             claim <- gets (get_claim cid) ;;
             match claim with
             | None => raise (KeyError cid)
             | Some c =>
                 msg <- customer_message_agent_groq endpoint cid
                          (Claim.description c) (Claim.evidence c) ;;
                 modify (set_customer_msg msg) ;;;
                 modify (set_send_status "") ;;;
                 ret Silent
             end
         | Some SimulateSendMessage =>
             msg <- gets customer_msg ;;
             if PyStr.truthy msg
             then modify (set_send_status
                            "✅ Message marked as sent to customer (simulated).") ;;;
                  ret Silent
             else ret Silent
         | Some SaveAsReviewing =>
             set_status cid "Reviewing" ;;;
             clear_selection ;;;
             ret (Success ("Claim " +:+ cid +:+ " saved as Reviewing."))
         | Some MarkAsCompleted =>
             set_status cid "Completed" ;;;
             clear_selection ;;;
             ret (Success ("Claim " +:+ cid +:+ " marked as Completed."))
         | Some StartANewClaim =>
             clear_selection ;;; ret Silent
         | None => ret Silent
         end
   end)%py.

(** The [if submitted:] block of [main] (lines 567-596) for the submitted
    form [f]. *)
Definition main_submitted (f : Form.t) (now : Z) : Py Feedback :=
  if (negb (PyStr.truthy (PyStr.strip (Form.description f)))
      || negb (PyStr.truthy (PyStr.strip (Form.customer_name f))))%bool
  then ret (Error "Please fill at least customer name and description.")
  else
    (let photo_present := Form.photo f in
     pipeline_result <-
       run_claim_pipeline_groq endpoint (Form.claim_id f) (Form.claim_type f)
         (Form.channel f) (Form.car_model f) (Form.description f) photo_present ;;
     save_claim_record (Form.claim_id f) (Form.customer_name f)
       (Form.customer_contact f) (Form.claim_type f) (Form.channel f)
       (Form.car_model f) (Form.description f) pipeline_result "Reviewing" now ;;;
     modify (set_active_claim_id (Some (Form.claim_id f))) ;;;
     modify (set_customer_msg "") ;;;
     modify (set_send_status "") ;;;
     ret (Success ("Analysis completed for claim " +:+ Form.claim_id f
                   +:+ ". Scroll down to view details.")))%py.

End Handlers.

(** ** Vocabulary of the properties *)

(** The four agent calls of the pipeline, in the order of lines 211-214. *)
Inductive Stage := Triage | Damage | Evidence | Settlement.

Definition pipeline_stages : list Stage := [Triage; Damage; Evidence; Settlement].

Section Stages.

Variable endpoint : list Request -> Request -> ApiResult.

(** The call of [run_claim_pipeline_groq] in [main] (lines 573-580). *)
Definition run_pipeline (f : Form.t) : Py Result.t :=
  run_claim_pipeline_groq endpoint (Form.claim_id f) (Form.claim_type f)
    (Form.channel f) (Form.car_model f) (Form.description f) (Form.photo f).

(** The agent call a stage of that pipeline run makes. *)
Definition stage_call (f : Form.t) (s : Stage) : Py string :=
  match s with
  | Triage => triage_agent_groq endpoint (Form.claim_type f) (Form.description f)
  | Damage =>
      damage_agent_groq endpoint (Form.claim_type f) (Form.car_model f)
        (Form.description f) (Form.photo f)
  | Evidence => evidence_agent_groq endpoint (Form.description f) (Form.photo f)
  | Settlement =>
      settlement_agent_groq endpoint (Form.claim_type f) (Form.car_model f)
        (Form.description f)
  end.

(** Running [stages] one after the other from [st]: the first stage whose
    call raises, with what it raises and the state then; [None] when every
    call returns. *)
Fixpoint first_failure (f : Form.t) (stages : list Stage) (st : State)
  : option (Stage * exn * State) :=
  match stages with
  | [] => None
  | s :: rest =>
      match stage_call f s st with
      | (inl e, st') => Some (s, e, st')
      | (inr _, st') => first_failure f rest st'
      end
  end.


End Stages.

(** Everything of the state but the list of requests made. *)
Definition session (st : State)
  : list Claim.t * list (string * nat) * option string * Z * string * string :=
  (objects st, claims_db st, active_claim_id st, next_idx st, customer_msg st,
   send_status st).

(** [kw] occurs in [t] in some letter case: a piece of [t] lowers to [kw]. *)
Definition occurs_ci (kw t : string) : Prop :=
  exists pre w post, t = pre +:+ w +:+ post /\ PyStr.lower w = kw.

(** Operations on the record store. [Create] is the call of
    [save_claim_record] in [main] (lines 581-591), for a form and the result
    of its pipeline run. *)
Inductive StoreOp :=
| Create (f : Form.t) (r : Result.t) (now : Z)
| Delete (cid : string)
| SetStatus (cid : string) (v : string).

Definition create (f : Form.t) (r : Result.t) (now : Z) : Py unit :=
  save_claim_record (Form.claim_id f) (Form.customer_name f)
    (Form.customer_contact f) (Form.claim_type f) (Form.channel f)
    (Form.car_model f) (Form.description f) r "Reviewing" now.

Definition store_op (op : StoreOp) : Py unit :=
  match op with
  | Create f r now => create f r now
  | Delete cid => delete_claim cid
  | SetStatus cid v => set_status cid v
  end.

(** The state after an operation, whether it returned or raised. *)
Definition apply_op (st : State) (op : StoreOp) : State := (store_op op st).2.

Definition apply_ops (ops : list StoreOp) (st : State) : State :=
  fold_left apply_op ops st.

(** The creation indices the [Create] operations of [ops] give, in order:
    each is read from the record found under the claim id right after. *)
Fixpoint assigned_idx (ops : list StoreOp) (st : State) : list Z :=
  match ops with
  | [] => []
  | op :: ops' =>
      let st' := apply_op st op in
      match op with
      | Create f _ _ =>
          match get_claim (Form.claim_id f) st' with
          | Some c => Claim.created_idx c :: assigned_idx ops' st'
          | None => assigned_idx ops' st'
          end
      | _ => assigned_idx ops' st'
      end
  end.

Definition is_create (op : StoreOp) : bool :=
  match op with Create _ _ _ => true | _ => false end.

(** The record [create] stores. *)
Definition new_record (f : Form.t) (r : Result.t) (now idx : Z) : Claim.t :=
  {| Claim.id := Form.claim_id f;
     Claim.customer_name := Form.customer_name f;
     Claim.customer_contact := Form.customer_contact f;
     Claim.type := Form.claim_type f;
     Claim.channel := Form.channel f;
     Claim.car_model := Form.car_model f;
     Claim.description := Form.description f;
     Claim.status := "Reviewing";
     Claim.priority := extract_priority_label (Result.triage r);
     Claim.triage := Result.triage r;
     Claim.damage := Result.damage r;
     Claim.evidence := Result.evidence r;
     Claim.settlement := Result.settlement r;
     Claim.overview := Result.overview r;
     Claim.created_at := now;
     Claim.created_idx := idx |}.

(** The objects the references of a dictionary point to, in the order of
    its keys. *)
Definition follow (o : list Claim.t) (d : list (string * nat)) : list Claim.t :=
  omap (fun ref => o !! ref) (Dict.values d).

(** An entry is in order when its reference points to an object that
    carries the key as its id and a creation index that is at most [n]. *)
Definition entry_ok (o : list Claim.t) (n : Z) (kr : string * nat) : Prop :=
  exists c, o !! kr.2 = Some c /\ Claim.id c = kr.1 /\ Claim.created_idx c <= n.

(** A dictionary of references into [o] is in order, for the counter [n],
    when its keys are distinct, no two keys hold the same object, every
    entry is in order and the creation indices of the objects are distinct. *)
Record dict_ok (o : list Claim.t) (n : Z) (d : list (string * nat)) : Prop := {
  ok_keys : NoDup (Dict.keys d);
  ok_refs : NoDup (Dict.values d);
  ok_entries : Forall (entry_ok o n) d;
  ok_idx : NoDup (Claim.created_idx <$> follow o d)
}.

(** Invariant of the state. *)
Definition state_ok (st : State) : Prop :=
  dict_ok (objects st) (next_idx st) (claims_db st).

(** [x] may stand before [y] in a list sorted in reverse by [key]. *)
Definition reverse_order {A} (key : A -> Z) (x y : A) : Prop := key y <= key x.

(** What [call_groq] makes of the endpoint's answer. *)
Definition completion_text (r : ApiResult) : exn + string :=
  match r with
  | Raises e => inl (ClientError e)
  | Returns resp =>
      match choices resp with
      | [] => inl IndexError
      | c :: _ => inr (PyStr.strip (content_text (message_content (message c))))
      end
  end.

Definition chat_request (system_prompt user_prompt : string) (temperature : Q)
  : Request :=
  {| model := "llama-3.1-8b-instant";
     messages := [ {| role := "system"; content := system_prompt |};
                   {| role := "user"; content := user_prompt |} ];
     temperature := temperature |}.

(** The request a stage sends for the form [f]. *)
Definition stage_request (f : Form.t) (s : Stage) : Request :=
  match s with
  | Triage =>
      chat_request "You are a precise vehicle insurance triage engine."
        (triage_prompt (Form.claim_type f) (Form.description f))
        default_temperature
  | Damage =>
      chat_request
        "You are an auto damage estimator for Indian private passenger vehicles."
        (damage_prompt (Form.claim_type f) (Form.car_model f)
           (Form.description f) (Form.photo f))
        default_temperature
  | Evidence =>
      chat_request
        "You are an insurance claims evidence and documentation assistant."
        (evidence_prompt (Form.description f) (Form.photo f))
        default_temperature
  | Settlement =>
      chat_request
        "You are a senior, fair motor insurance claims adjuster in India."
        (settlement_prompt (Form.claim_type f) (Form.car_model f)
           (Form.description f))
        default_temperature
  end.

(** The overview [run_claim_pipeline_groq] builds for the form [f]. *)
Definition overview_of (f : Form.t) : Overview.t :=
  {| Overview.claim_id := Form.claim_id f;
     Overview.claim_type := Form.claim_type f;
     Overview.channel := Form.channel f;
     Overview.car_model := Form.car_model f;
     Overview.has_photos := Form.photo f |}.

Definition fill_fields_message : string :=
  "Please fill at least customer name and description.".

(** ** Sample data *)

Definition sample_form (cid : string) : Form.t :=
  {| Form.claim_id := cid;
     Form.customer_name := "Asha Rao";
     Form.customer_contact := "";
     Form.claim_type := "Collision";
     Form.channel := "Web Portal";
     Form.car_model := "Maruti Suzuki Baleno 2022";
     Form.description := "Rear-ended at a signal, bumper dented";
     Form.photo := false |}.

Definition sample_result (cid triage : string) : Result.t :=
  {| Result.overview := overview_of (sample_form cid);
     Result.triage := triage;
     Result.damage := "- damage category: Minor";
     Result.evidence := "Summary";
     Result.settlement := "- fast-track: yes" |}.

Definition completion (text : string) : ApiResult :=
  Returns {| choices := [ {| message := {| message_content := ContentStr text |} |} ] |}.


(** An endpoint that rejects every request. *)
Definition failing_endpoint : list Request -> Request -> ApiResult :=
  fun _ _ => Raises "rate limit reached".

(** An endpoint that answers three requests and rejects the fourth. *)
Definition late_failing_endpoint : list Request -> Request -> ApiResult :=
  fun before _ =>
    if (length before <? 3)%nat then completion "- severity: Low"
    else Raises "rate limit reached".

(** ** The rest of the user interface *)

(** [s.upper()], on the ASCII range like [PyStr.lower]. *)
Definition upper_char (c : ascii) : ascii :=
  let n := Ascii.nat_of_ascii c in
  if ((97 <=? n)%nat && (n <=? 122)%nat)%bool
  then Ascii.ascii_of_nat (n - 32)
  else c.

Fixpoint upper (s : string) : string :=
  match s with
  | EmptyString => EmptyString
  | String c s' => String (upper_char c) (upper s')
  end.

(** Zero digits in front of [d] up to [width] digits. *)
Definition zero_fill (width : nat) (d : Decimal.uint) : Decimal.uint :=
  Nat.iter (width - Decimal.nb_digits d) Decimal.D0 d.

(** The format [03d] of an integer: the sign of a negative number counts
    in the width. *)
Definition format_03d (n : Z) : string :=
  match Z.to_int n with
  | Decimal.Pos d => NilEmpty.string_of_uint (zero_fill 3 d)
  | Decimal.Neg d => "-" +:+ NilEmpty.string_of_uint (zero_fill 2 d)
  end.

(** The claim id the new-claim form proposes (line 536). *)
Definition suggested_claim_id (st : State) : string :=
  "CLM-" +:+ format_03d (next_idx st + 1).



(** The claims [render_history] lists for a filter (lines 327-329). *)
Definition history_claims (priority_filter : string) (st : State) : list Claim.t :=
  let claims := get_sorted_claims st in
  if negb (String.eqb priority_filter "All")
  then filter (fun c => Claim.priority c = upper priority_filter) claims
  else claims.

Inductive HistoryButton :=
| DeleteClaim (cid : string)
| OpenClaim (cid : string).

(** The id on the card of a claim (line 339). *)
Definition card_ids (claims : list Claim.t) : list string := Claim.id <$> claims.

(** [render_history] (lines 326-400) when [clicked] is the button pressed in
    this run, if any; a card has its buttons only when its claim is listed. *)
Definition render_history (priority_filter : string) (clicked : option HistoryButton)
  : Py Feedback :=
  (claims <- gets (history_claims priority_filter) ;;
   match claims with
   | [] => ret (Info "_No claims for this filter._")
   | _ :: _ =>
       match clicked with
       | Some (OpenClaim cid) =>
           if bool_decide (cid ∈ card_ids claims)
           then open_claim cid ;;; ret Silent
           else ret Silent
       | Some (DeleteClaim cid) =>
           if bool_decide (cid ∈ card_ids claims)
           then delete_claim cid ;;; ret Silent
           else ret Silent
       | None => ret Silent
       end
   end)%py.

(** What the user does in a run of the script. *)
Inductive Event :=
| FormSubmitted (f : Form.t)
| ReviewClicked (b : ReviewButton)
| HistoryClicked (b : HistoryButton)
| NoEvent.

Definition review_click (ev : Event) : option ReviewButton :=
  match ev with ReviewClicked b => Some b | _ => None end.

Definition history_click (ev : Event) : option HistoryButton :=
  match ev with HistoryClicked b => Some b | _ => None end.

Section Main.

Variable endpoint : list Request -> Request -> ApiResult.

(** The workspace tab of [main] (lines 528-598): the form when no claim is
    active, the review panel otherwise. *)
Definition workspace_tab (ev : Event) (now : Z) : Py Feedback :=
  (active <- gets active_claim_id ;;
   match active with
   | None =>
       match ev with
       | FormSubmitted f => main_submitted endpoint f now
       | _ => ret Silent
       end
   | Some _ => render_claim_intelligence endpoint (review_click ev)
   end)%py.

(** [main] (lines 515-605) for the filter chosen in the history tab and the
    event of the run: the workspace tab, then the history tab.  The result
    is the feedback of the two tabs.  A run that ends in [st.rerun()] draws
    nothing after it; the parts it skips have no click. *)
Definition main (priority_filter : string) (ev : Event) (now : Z)
  : Py (Feedback * Feedback) :=
  (workspace <- workspace_tab ev now ;;
   history <- render_history priority_filter (history_click ev) ;;
   ret (workspace, history))%py.

(** The state after the runs of a session, one per event, each with the
    filter chosen and the time of the run. *)
Definition run_events (evs : list (string * Event * Z)) (st : State) : State :=
  fold_left (fun s e => (main e.1.1 e.1.2 e.2 s).2) evs st.

End Main.

(** The stages up to a stage, in the order of the calls. *)
Definition stages_upto (s : Stage) : list Stage :=
  match s with
  | Triage => [Triage]
  | Damage => [Triage; Damage]
  | Evidence => [Triage; Damage; Evidence]
  | Settlement => [Triage; Damage; Evidence; Settlement]
  end.



(** The order of the priority labels, UNSPECIFIED lowest. *)
Definition priority_rank (p : string) : nat :=
  if String.eqb p "HIGH" then 3
  else if String.eqb p "MEDIUM" then 2
  else if String.eqb p "LOW" then 1
  else 0.

(** Every [Create] of a run of operations is filed under the id the form
    proposes at that time. *)
Fixpoint files_suggested (ops : list StoreOp) (st : State) : Prop :=
  match ops with
  | [] => True
  | op :: ops' =>
      match op with
      | Create f _ _ => Form.claim_id f = suggested_claim_id st
      | _ => True
      end /\ files_suggested ops' (apply_op st op)
  end.

(** An endpoint whose completions rate the claim low. *)
Definition steady_endpoint : list Request -> Request -> ApiResult :=
  fun _ _ => completion "  - severity: Low  ".


(** Every key of [claims_db] is the id proposed at a counter that is past. *)
Definition keys_proposed (st : State) : Prop :=
  forall k, k ∈ Dict.keys (claims_db st) ->
            exists i, i <= next_idx st /\ k = "CLM-" +:+ format_03d i.


(** * Properties *)

(** ** Strings *)

#[local] Arguments String.append !_ _ / : simpl nomatch.

Lemma lower_app (a b : string) :
  PyStr.lower (a +:+ b) = PyStr.lower a +:+ PyStr.lower b.
Proof. induction a as [|x a IH]; simpl; [done | by rewrite IH]. Qed.

(** A split of [lower t] comes from a split of [t]. *)
Lemma lower_split (t a b : string) :
  PyStr.lower t = a +:+ b ->
  exists t1 t2, t = t1 +:+ t2 /\ PyStr.lower t1 = a /\ PyStr.lower t2 = b.
Proof.
  revert t. induction a as [|x a IH]; intros t H.
  - exists "", t. done.
  - destruct t as [|y t]; simpl in H; [discriminate|].
    injection H as Hx Ht. destruct (IH _ Ht) as (t1 & t2 & -> & H1 & H2).
    exists (String y t1), t2. simpl. by rewrite Hx, H1.
Qed.

Lemma prefix_spec (n h : string) :
  String.prefix n h = true <-> exists post, h = n +:+ post.
Proof.
  revert h. induction n as [|x n IH]; intros h.
  - destruct h; simpl; split; eauto.
  - destruct h as [|y h]; simpl.
    + split; [discriminate | intros [post H]; discriminate].
    + destruct (Ascii.ascii_dec x y) as [->|Hne].
      * rewrite IH. split; intros [post H]; exists post; congruence.
      * split; [discriminate | intros [post H]; congruence].
Qed.

Lemma contains_spec (n h : string) :
  PyStr.contains n h = true <-> exists pre post, h = pre +:+ n +:+ post.
Proof.
  induction h as [|y h IH]; cbn [PyStr.contains].
  - rewrite prefix_spec. split.
    + intros [post H]. by exists "", post.
    + intros (pre & post & H). destruct pre; simpl in H; [eauto | discriminate].
  - rewrite orb_true_iff, IH, prefix_spec. split.
    + intros [[post H] | (pre & post & H)].
      * by exists "", post.
      * exists (String y pre), post. simpl. by rewrite H.
    + intros (pre & post & H). destruct pre as [|z pre]; simpl in H.
      * left. eauto.
      * right. injection H as _ H. eauto.
Qed.

Lemma occurs_ci_contains (kw t : string) :
  occurs_ci kw t <-> PyStr.contains kw (PyStr.lower t) = true.
Proof.
  rewrite contains_spec. split.
  - intros (pre & w & post & -> & <-).
    exists (PyStr.lower pre), (PyStr.lower post). by rewrite !lower_app.
  - intros (a & b & H).
    destruct (lower_split _ _ _ H) as (pre & rest & -> & _ & Hrest).
    destruct (lower_split _ _ _ Hrest) as (w & post & -> & Hw & _).
    by exists pre, w, post.
Qed.

(** C3: [extract_priority_label] looks for the keywords in any letter case,
    in the order high, medium, low; the first that occurs decides and none
    gives UNSPECIFIED.  So a text in which both high and low occur gives
    HIGH, and a text in which none of the three occurs gives UNSPECIFIED. *)
Theorem extract_priority_label_precedence (t : string) :
  (extract_priority_label t = "HIGH" <-> occurs_ci "high" t) /\
  (extract_priority_label t = "MEDIUM" <->
     ~ occurs_ci "high" t /\ occurs_ci "medium" t) /\
  (extract_priority_label t = "LOW" <->
     ~ occurs_ci "high" t /\ ~ occurs_ci "medium" t /\ occurs_ci "low" t) /\
  (extract_priority_label t = "UNSPECIFIED" <->
     ~ occurs_ci "high" t /\ ~ occurs_ci "medium" t /\ ~ occurs_ci "low" t) /\
  (occurs_ci "high" t /\ occurs_ci "low" t -> extract_priority_label t = "HIGH").
Proof.
  rewrite !occurs_ci_contains. unfold extract_priority_label.
  destruct (PyStr.contains "high" (PyStr.lower t));
    destruct (PyStr.contains "medium" (PyStr.lower t));
    destruct (PyStr.contains "low" (PyStr.lower t));
    repeat split; intros; try discriminate; try done;
    repeat match goal with H : _ /\ _ |- _ => destruct H end;
    try done; try congruence.
Qed.

Lemma extract_priority_label_precedence_witness :
  extract_priority_label "Severity: not HIGH, rather Low" = "HIGH".
Proof.
  apply (extract_priority_label_precedence "Severity: not HIGH, rather Low").
  split.
  - exists "Severity: not ", "HIGH", ", rather Low". split; reflexivity.
  - exists "Severity: not HIGH, rather ", "Low", "". split; reflexivity.
Defined.

(** The label of some triage texts. *)

Example extract_priority_label_high :
  extract_priority_label "- severity: High severity, P1" = "HIGH".
Proof. reflexivity. Qed.

Example extract_priority_label_medium :
  extract_priority_label "Medium priority case" = "MEDIUM".
Proof. reflexivity. Qed.

Example extract_priority_label_low :
  extract_priority_label "routine low-impact scrape" = "LOW".
Proof. reflexivity. Qed.

Example extract_priority_label_unspecified :
  extract_priority_label "no keywords here" = "UNSPECIFIED".
Proof. reflexivity. Qed.

(** A level that the text only rules out decides all the same. *)
Example extract_priority_label_ruled_out :
  extract_priority_label "Low impact, not High severity" = "HIGH".
Proof. reflexivity. Qed.

(** ** The client and the pipeline *)

Section PipelineFacts.

Variable endpoint : list Request -> Request -> ApiResult.

Lemma call_groq_eq (system_prompt user_prompt : string) (temp : Q) (st : State) :
  call_groq endpoint system_prompt user_prompt temp st =
    (completion_text (endpoint (sent st) (chat_request system_prompt user_prompt temp)),
     log_request (chat_request system_prompt user_prompt temp) st).
Proof.
  unfold call_groq, completion_text, chat_request.
  destruct (endpoint _ _) as [e|resp]; [done|].
  by destruct (choices resp).
Qed.

(** A stage sends its request and hands on the text or the error. *)
Lemma stage_call_eq (f : Form.t) (s : Stage) (st : State) :
  stage_call endpoint f s st =
    (completion_text (endpoint (sent st) (stage_request f s)),
     log_request (stage_request f s) st).
Proof. destruct s; apply call_groq_eq. Qed.

Lemma stage_call_session (f : Form.t) (s : Stage) (st : State) :
  session (stage_call endpoint f s st).2 = session st.
Proof. by rewrite stage_call_eq. Qed.

Lemma first_failure_session (f : Form.t) (stages : list Stage) (st st' : State)
    (s : Stage) (e : exn) :
  first_failure endpoint f stages st = Some (s, e, st') ->
  session st' = session st.
Proof.
  revert st. induction stages as [|s0 stages IH]; intros st; simpl; [done|].
  pose proof (stage_call_session f s0 st) as Hs.
  destruct (stage_call endpoint f s0 st) as [[e0|t] st0]; simpl in Hs.
  - intros [= _ _ <-]. done.
  - intros H. rewrite (IH _ H). done.
Qed.

(** The pipeline raises what the first failing stage raises. *)
Lemma run_pipeline_failure (f : Form.t) (st st' : State) (s : Stage) (e : exn) :
  first_failure endpoint f pipeline_stages st = Some (s, e, st') ->
  run_pipeline endpoint f st = (inl e, st').
Proof.
  unfold run_pipeline, run_claim_pipeline_groq, pipeline_stages, bind.
  cbn [first_failure stage_call].
  destruct (triage_agent_groq _ _ _ st) as [[e1|t1] st1]; [by intros [= _ <- <-]|].
  destruct (damage_agent_groq _ _ _ _ _ st1) as [[e2|t2] st2]; [by intros [= _ <- <-]|].
  destruct (evidence_agent_groq _ _ _ st2) as [[e3|t3] st3]; [by intros [= _ <- <-]|].
  destruct (settlement_agent_groq _ _ _ _ st3) as [[e4|t4] st4]; [by intros [= _ <- <-]|].
  done.
Qed.


(** A form with a blank name or description is turned down at once. *)
Lemma main_submitted_blank (f : Form.t) (now : Z) (st : State) :
  PyStr.strip (Form.description f) = "" \/ PyStr.strip (Form.customer_name f) = "" ->
  main_submitted endpoint f now st = (inr (Error fill_fields_message), st).
Proof.
  intros H. unfold main_submitted.
  destruct H as [H|H]; rewrite H; simpl; [done|].
  by rewrite orb_true_r.
Qed.

(** Otherwise the pipeline runs first; what it raises leaves [main]. *)
Lemma main_submitted_raises (f : Form.t) (now : Z) (st st' : State) (e : exn) :
  run_pipeline endpoint f st = (inl e, st') ->
  main_submitted endpoint f now st = (inl e, st') \/
  main_submitted endpoint f now st = (inr (Error fill_fields_message), st).
Proof.
  intros H. unfold main_submitted.
  destruct (negb _ || negb _)%bool; [by right|left].
  unfold bind. fold (run_pipeline endpoint f). by rewrite H.
Qed.

End PipelineFacts.

Lemma session_sorted (st st' : State) :
  session st' = session st -> get_sorted_claims st' = get_sorted_claims st.
Proof.
  unfold session, get_sorted_claims, claims_values, deref.
  intros [= Ho Hd _ _ _ _]. by rewrite Ho, Hd.
Qed.

Lemma session_get_claim (st st' : State) (cid : string) :
  session st' = session st -> get_claim cid st' = get_claim cid st.
Proof.
  unfold session, get_claim, deref. intros [= Ho Hd _ _ _ _]. by rewrite Ho, Hd.
Qed.



(** C2: when one of the four agent calls of a pipeline run raises, the run
    raises too and returns no result; [main] does not reach
    [save_claim_record], and the session state, with the records and their
    listing, is what it was. *)
Theorem failed_pipeline_leaves_store
    (endpoint : list Request -> Request -> ApiResult)
    (f : Form.t) (now : Z) (st st1 : State) (s : Stage) (e : exn) :
  first_failure endpoint f pipeline_stages st = Some (s, e, st1) ->
  run_pipeline endpoint f st = (inl e, st1) /\
  (main_submitted endpoint f now st = (inl e, st1) \/
   main_submitted endpoint f now st = (inr (Error fill_fields_message), st)) /\
  session (main_submitted endpoint f now st).2 = session st /\
  get_sorted_claims (main_submitted endpoint f now st).2 = get_sorted_claims st /\
  (forall cid, get_claim cid (main_submitted endpoint f now st).2 = get_claim cid st).
Proof.
  intros H.
  pose proof (run_pipeline_failure _ _ _ _ _ _ H) as Hrun.
  pose proof (first_failure_session _ _ _ _ _ _ _ H) as Hses.
  assert (Hm : session (main_submitted endpoint f now st).2 = session st).
  { destruct (main_submitted_raises endpoint f now _ _ _ Hrun) as [-> | ->]; done. }
  repeat split; try done.
  - by apply main_submitted_raises.
  - by apply session_sorted.
  - intros cid. by apply session_get_claim.
Qed.

Lemma failed_pipeline_leaves_store_witness :
  first_failure late_failing_endpoint (sample_form "CLM-001") pipeline_stages init_state
    = Some (Settlement, ClientError "rate limit reached",
            (run_pipeline late_failing_endpoint (sample_form "CLM-001") init_state).2) /\
  session (main_submitted late_failing_endpoint (sample_form "CLM-001") 0 init_state).2
    = session init_state.
Proof.
  assert (H : first_failure late_failing_endpoint (sample_form "CLM-001")
                pipeline_stages init_state
              = Some (Settlement, ClientError "rate limit reached",
                      (run_pipeline late_failing_endpoint (sample_form "CLM-001")
                         init_state).2))
    by (vm_compute; reflexivity).
  split; [exact H|].
  exact (proj1 (proj2 (proj2
    (failed_pipeline_leaves_store late_failing_endpoint (sample_form "CLM-001") 0
       init_state _ Settlement (ClientError "rate limit reached") H)))).
Defined.

(** C4: a submission whose customer name or description is empty is turned
    down with the error message; no request is made and the state, with its
    records, is exactly what it was. *)
Theorem blank_submission_rejected
    (endpoint : list Request -> Request -> ApiResult)
    (f : Form.t) (now : Z) (st : State) :
  Form.customer_name f = "" \/ Form.description f = "" ->
  main_submitted endpoint f now st = (inr (Error fill_fields_message), st).
Proof.
  intros [H|H]; apply main_submitted_blank; rewrite H; auto.
Qed.

Lemma blank_submission_rejected_witness :
  main_submitted failing_endpoint
    {| Form.claim_id := "CLM-001"; Form.customer_name := "";
       Form.customer_contact := ""; Form.claim_type := "Collision";
       Form.channel := "Mobile App"; Form.car_model := "Maruti Suzuki Baleno 2022";
       Form.description := "Bumper dented"; Form.photo := false |} 0 init_state
  = (inr (Error fill_fields_message), init_state).
Proof.
  apply blank_submission_rejected. left. reflexivity.
Defined.

(** C9, as amended: when an agent call of a pipeline run raises, the
    pipeline raises that very error, the client's own or the IndexError of
    an empty choice list, with nothing added; [main] hands it on as it is. *)
Theorem pipeline_error_is_client_error
    (endpoint : list Request -> Request -> ApiResult)
    (f : Form.t) (now : Z) (st st1 : State) (s : Stage) (e : exn) :
  first_failure endpoint f pipeline_stages st = Some (s, e, st1) ->
  run_pipeline endpoint f st = (inl e, st1) /\
  ((exists msg, e = ClientError msg) \/ e = IndexError) /\
  (main_submitted endpoint f now st = (inl e, st1) \/
   main_submitted endpoint f now st = (inr (Error fill_fields_message), st)).
Proof.
  intros H. pose proof (run_pipeline_failure _ _ _ _ _ _ H) as Hrun.
  repeat split; [done| |by apply main_submitted_raises].
  clear Hrun. revert st H. unfold pipeline_stages.
  generalize [Triage; Damage; Evidence; Settlement].
  intros stages. induction stages as [|s0 stages IH]; intros st; simpl; [done|].
  rewrite stage_call_eq.
  destruct (completion_text _) as [e0|t] eqn:Hc; [|by apply IH].
  intros [= _ <- _]. unfold completion_text in Hc.
  destruct (endpoint _ _) as [msg|resp].
  - injection Hc as <-. left. by exists msg.
  - destruct (choices resp); [|discriminate]. injection Hc as <-. by right.
Qed.

Lemma pipeline_error_is_client_error_witness :
  first_failure failing_endpoint (sample_form "CLM-001") pipeline_stages init_state
    = Some (Triage, ClientError "rate limit reached",
            (run_pipeline failing_endpoint (sample_form "CLM-001") init_state).2) /\
  run_pipeline failing_endpoint (sample_form "CLM-001") init_state
    = (inl (ClientError "rate limit reached"),
       (run_pipeline failing_endpoint (sample_form "CLM-001") init_state).2).
Proof.
  assert (H : first_failure failing_endpoint (sample_form "CLM-001")
                pipeline_stages init_state
              = Some (Triage, ClientError "rate limit reached",
                      (run_pipeline failing_endpoint (sample_form "CLM-001")
                         init_state).2))
    by (vm_compute; reflexivity).
  split; [exact H|].
  exact (proj1 (pipeline_error_is_client_error failing_endpoint
                  (sample_form "CLM-001") 0 init_state _ Triage
                  (ClientError "rate limit reached") H)).
Defined.

(** C9 as stated fails: no reading of the error tells the stage.  The
    pipeline raises the same error when the triage call is rejected as when
    the settlement call is. *)
Lemma pipeline_error_names_no_stage :
  ~ exists stage_of : exn -> Stage,
      forall endpoint f st s e st1 e' st2,
        first_failure endpoint f pipeline_stages st = Some (s, e, st1) ->
        run_pipeline endpoint f st = (inl e', st2) ->
        stage_of e' = s.
Proof.
  intros [stage_of H].
  assert (H1 : stage_of (ClientError "rate limit reached") = Triage).
  { eapply (H failing_endpoint (sample_form "CLM-001") init_state); vm_compute; reflexivity. }
  assert (H2 : stage_of (ClientError "rate limit reached") = Settlement).
  { eapply (H late_failing_endpoint (sample_form "CLM-001") init_state); vm_compute; reflexivity. }
  rewrite H1 in H2. discriminate.
Qed.

(** ** Dictionaries *)

Section DictFacts.

Context {V : Type}.
Implicit Types (d : list (string * V)) (k : string) (v : V).

Lemma dict_get_None k d : Dict.get k d = None <-> k ∉ Dict.keys d.
Proof.
  induction d as [|[k' v'] d IH]; simpl.
  - split; [intros _; apply not_elem_of_nil | done].
  - rewrite not_elem_of_cons. destruct (String.eqb_spec k k') as [->|Hne].
    + split; [done | intros [? _]; done].
    + rewrite IH. tauto.
Qed.

Lemma dict_get_elem_of k v d : Dict.get k d = Some v -> (k, v) ∈ d.
Proof.
  induction d as [|[k' v'] d IH]; simpl; [done|].
  destruct (String.eqb_spec k k') as [->|Hne].
  - intros [= ->]. apply list_elem_of_here.
  - intros H. apply list_elem_of_further. auto.
Qed.

Lemma dict_get_set_eq k v d : Dict.get k (Dict.set k v d) = Some v.
Proof.
  induction d as [|[k' v'] d IH]; simpl.
  - by rewrite String.eqb_refl.
  - destruct (String.eqb_spec k k') as [->|Hne]; simpl.
    + by rewrite String.eqb_refl.
    + destruct (String.eqb_spec k k'); [done | apply IH].
Qed.

Lemma dict_get_set_ne k k' v d :
  k <> k' -> Dict.get k' (Dict.set k v d) = Dict.get k' d.
Proof.
  intros Hne. induction d as [|[k0 v0] d IH]; simpl.
  - destruct (String.eqb_spec k' k); [congruence | done].
  - destruct (String.eqb_spec k k0) as [->|Hk]; simpl.
    + destruct (String.eqb_spec k' k0); [congruence | done].
    + destruct (String.eqb_spec k' k0); [done | apply IH].
Qed.

(** Assigning to a key appends an entry or replaces the one of the key,
    where it stands. *)
Lemma dict_set_spec k v d :
  ((k ∉ Dict.keys d) /\ Dict.set k v d = d ++ [(k, v)]) \/
  (exists d1 v0 d2, d = d1 ++ (k, v0) :: d2 /\ (k ∉ Dict.keys d1) /\
                    Dict.set k v d = d1 ++ (k, v) :: d2).
Proof.
  induction d as [|[k' v'] d IH]; simpl.
  - left. split; [apply not_elem_of_nil | done].
  - destruct (String.eqb_spec k k') as [->|Hne].
    + right. exists [], v', d. split; [done|]. split; [apply not_elem_of_nil | done].
    + destruct IH as [[Hk ->] | (d1 & v0 & d2 & -> & Hk & ->)].
      * left. split; [|done]. rewrite not_elem_of_cons. done.
      * right. exists ((k', v') :: d1), v0, d2. split; [done|].
        split; [|done]. simpl. rewrite not_elem_of_cons. done.
Qed.

Lemma dict_del_Some k d d' :
  Dict.del k d = Some d' ->
  exists d1 v0 d2, d = d1 ++ (k, v0) :: d2 /\ (k ∉ Dict.keys d1) /\ d' = d1 ++ d2.
Proof.
  revert d'. induction d as [|[k' v'] d IH]; intros d'; simpl; [done|].
  destruct (String.eqb_spec k k') as [->|Hne].
  - intros [= <-]. exists [], v', d. split; [done|].
    split; [apply not_elem_of_nil | done].
  - destruct (Dict.del k d) as [d0|]; [|done]. intros [= <-].
    destruct (IH _ eq_refl) as (d1 & v0 & d2 & -> & Hk & ->).
    exists ((k', v') :: d1), v0, d2. split; [done|].
    split; [|done]. simpl. rewrite not_elem_of_cons. done.
Qed.

Lemma dict_del_None k d : Dict.del k d = None -> Dict.get k d = None.
Proof.
  induction d as [|[k' v'] d IH]; simpl; [done|].
  destruct (String.eqb_spec k k'); [done|].
  destruct (Dict.del k d); [done | auto].
Qed.

Lemma dict_get_middle_ne k k' v d1 d2 :
  k <> k' -> Dict.get k' (d1 ++ (k, v) :: d2) = Dict.get k' (d1 ++ d2).
Proof.
  intros Hne. induction d1 as [|[k0 v0] d1 IH]; simpl.
  - destruct (String.eqb_spec k' k); [congruence | done].
  - destruct (String.eqb_spec k' k0); [done | apply IH].
Qed.

End DictFacts.

(** ** Sorting *)

Section Sorting.

Context {A : Type} (key : A -> Z).


Lemma insert_reverse_perm (x : A) (l : list A) : insert_reverse key x l ≡ₚ x :: l.
Proof.
  induction l as [|y l IH]; simpl; [done|].
  destruct (key y <=? key x); [done|].
  rewrite IH. apply Permutation_swap.
Qed.

Lemma sorted_reverse_perm (l : list A) : sorted_reverse key l ≡ₚ l.
Proof.
  induction l as [|x l IH]; simpl; [done|].
  by rewrite insert_reverse_perm, IH.
Qed.

Lemma insert_reverse_sorted (x : A) (l : list A) :
  StronglySorted (reverse_order key) l -> StronglySorted (reverse_order key) (insert_reverse key x l).
Proof.
  induction 1 as [|y l Hl IH Hy]; simpl.
  - repeat constructor.
  - destruct (Z.leb_spec (key y) (key x)) as [Hle|Hgt].
    + constructor; [by constructor|]. constructor; [done|].
      eapply Forall_impl; [exact Hy|]. unfold reverse_order. simpl. intros; lia.
    + constructor; [done|].
      rewrite insert_reverse_perm. constructor; [unfold reverse_order; lia | done].
Qed.

Lemma sorted_reverse_sorted (l : list A) : StronglySorted (reverse_order key) (sorted_reverse key l).
Proof.
  induction l as [|x l IH]; simpl; [constructor | by apply insert_reverse_sorted].
Qed.

(** An element above all others comes first. *)
Lemma sorted_reverse_max (l1 l2 : list A) (x : A) :
  Forall (fun y => key y < key x) (l1 ++ l2) ->
  sorted_reverse key (l1 ++ x :: l2) = x :: sorted_reverse key (l1 ++ l2).
Proof.
  induction l1 as [|y l1 IH]; simpl; intros H.
  - assert (Hs : Forall (fun y => key y < key x) (sorted_reverse key l2))
      by by rewrite sorted_reverse_perm.
    destruct (sorted_reverse key l2) as [|z s]; simpl; [done|].
    apply Forall_cons_1 in Hs as [Hz _].
    destruct (Z.leb_spec (key z) (key x)); [done | lia].
  - apply Forall_cons_1 in H as [Hy H]. rewrite (IH H). simpl.
    destruct (Z.leb_spec (key x) (key y)); [lia | done].
Qed.

Section Filter.

Context (P : A -> Prop) `{!forall x, Decision (P x)}.

Lemma insert_reverse_filter_out (x : A) (l : list A) :
  ~ P x -> filter P (insert_reverse key x l) = filter P l.
Proof.
  intros Hx. induction l as [|y l IH]; simpl.
  - by rewrite filter_cons_False.
  - destruct (key y <=? key x).
    + by rewrite (filter_cons_False _ x).
    + rewrite !(filter_cons _ y), IH. done.
Qed.

Lemma insert_reverse_top (x : A) (l : list A) :
  Forall (fun y => key y <= key x) l -> insert_reverse key x l = x :: l.
Proof.
  destruct l as [|y l]; simpl; [done|].
  intros [Hy _]%Forall_cons_1. destruct (Z.leb_spec (key y) (key x)); [done | lia].
Qed.

Lemma insert_reverse_filter_in (x : A) (l : list A) :
  StronglySorted (reverse_order key) l -> P x ->
  filter P (insert_reverse key x l) = insert_reverse key x (filter P l).
Proof.
  intros Hl Hx. induction Hl as [|y l Hl IH Hy]; simpl.
  - by rewrite filter_cons_True.
  - destruct (Z.leb_spec (key y) (key x)) as [Hle|Hgt].
    + rewrite (filter_cons_True _ x) by done.
      symmetry. apply insert_reverse_top.
      apply Forall_forall. intros z [_ Hz]%list_elem_of_filter.
      apply elem_of_cons in Hz as [->|Hz]; [done|].
      rewrite Forall_forall in Hy. specialize (Hy z Hz). unfold reverse_order in Hy. lia.
    + rewrite !(filter_cons _ y). destruct (decide (P y)); simpl.
      * destruct (Z.leb_spec (key y) (key x)); [lia|]. by rewrite IH.
      * apply IH.
Qed.

Lemma sorted_reverse_filter (l : list A) :
  sorted_reverse key (filter P l) = filter P (sorted_reverse key l).
Proof.
  induction l as [|x l IH]; simpl; [done|].
  rewrite filter_cons. destruct (decide (P x)); simpl.
  - rewrite insert_reverse_filter_in, IH; [done | apply sorted_reverse_sorted | done].
  - by rewrite insert_reverse_filter_out.
Qed.

End Filter.

End Sorting.

(** ** References *)

Lemma follow_app (o : list Claim.t) (d1 d2 : list (string * nat)) :
  follow o (d1 ++ d2) = follow o d1 ++ follow o d2.
Proof. unfold follow, Dict.values. by rewrite fmap_app, omap_app. Qed.

Lemma follow_unfold (o : list Claim.t) (k : string) (ref : nat)
    (d : list (string * nat)) :
  follow o ((k, ref) :: d) =
    match o !! ref with Some c => c :: follow o d | None => follow o d end.
Proof. done. Qed.

Lemma follow_cons (o : list Claim.t) (k : string) (ref : nat) (c : Claim.t)
    (d : list (string * nat)) :
  o !! ref = Some c -> follow o ((k, ref) :: d) = c :: follow o d.
Proof. intros H. by rewrite follow_unfold, H. Qed.

Lemma entry_ok_lt (o : list Claim.t) (n : Z) (kr : string * nat) :
  entry_ok o n kr -> (kr.2 < length o)%nat.
Proof. intros (c & H & _). by apply lookup_lt_Some in H. Qed.

(** A new object leaves what the references point to as it is. *)
Lemma follow_grow (o : list Claim.t) (n : Z) (c : Claim.t) (d : list (string * nat)) :
  Forall (entry_ok o n) d -> follow (o ++ [c]) d = follow o d.
Proof.
  induction 1 as [|[k ref] d Hk _ IH]; [done|].
  apply entry_ok_lt in Hk. simpl in Hk.
  by rewrite !follow_unfold, IH, lookup_app_l.
Qed.

Lemma entry_ok_grow (o : list Claim.t) (n m : Z) (c : Claim.t) (kr : string * nat) :
  n <= m -> entry_ok o n kr -> entry_ok (o ++ [c]) m kr.
Proof.
  intros Hnm (c0 & H & Hid & Hidx). exists c0.
  split; [|split; [done | lia]].
  rewrite lookup_app_l; [done | by apply lookup_lt_Some in H].
Qed.

Lemma follow_bound (o : list Claim.t) (n : Z) (d : list (string * nat)) :
  Forall (entry_ok o n) d -> Forall (fun c => Claim.created_idx c <= n) (follow o d).
Proof.
  induction 1 as [|[k ref] d (c & H & _ & Hidx) _ IH]; [constructor|].
  simpl in H. rewrite (follow_cons _ _ _ _ _ H). by constructor.
Qed.

Lemma follow_other (o : list Claim.t) (n : Z) (k : string) (d : list (string * nat)) :
  Forall (entry_ok o n) d -> k ∉ Dict.keys d ->
  filter (fun c => Claim.id c <> k) (follow o d) = follow o d.
Proof.
  induction 1 as [|[k' ref] d (c & H & Hid & _) _ IH]; simpl; [done|].
  rewrite not_elem_of_cons. intros [Hne Hk]. simpl in H, Hid.
  rewrite (follow_cons _ _ _ _ _ H), filter_cons_True, IH; [done..|congruence].
Qed.

(** No two keys of a dictionary in order hold the same object. *)
Lemma dict_ok_no_alias (o : list Claim.t) (n : Z) (d : list (string * nat))
    (k1 k2 : string) (ref : nat) :
  dict_ok o n d -> Dict.get k1 d = Some ref -> Dict.get k2 d = Some ref -> k1 = k2.
Proof.
  intros [_ _ He _] H1%dict_get_elem_of H2%dict_get_elem_of.
  rewrite Forall_forall in He.
  destruct (He _ H1) as (c1 & Hc1 & Hid1 & _), (He _ H2) as (c2 & Hc2 & Hid2 & _).
  simpl in *. congruence.
Qed.

(** Taking an entry out keeps a dictionary in order. *)
Lemma dict_ok_remove (o : list Claim.t) (n : Z) (k : string) (ref : nat)
    (d1 d2 : list (string * nat)) :
  dict_ok o n (d1 ++ (k, ref) :: d2) ->
  dict_ok o n (d1 ++ d2) /\ (k ∉ Dict.keys (d1 ++ d2)) /\
  exists c, o !! ref = Some c /\ Claim.id c = k /\
            follow o (d1 ++ (k, ref) :: d2) = follow o d1 ++ c :: follow o d2.
Proof.
  intros [Hk Hr He Hi].
  apply Forall_app in He as [He1 He2].
  apply Forall_cons_1 in He2 as [(c & Hc & Hid & Hidx) He2]. simpl in Hc, Hid.
  assert (Hf : follow o (d1 ++ (k, ref) :: d2) = follow o d1 ++ c :: follow o d2)
    by by rewrite follow_app, (follow_cons _ _ _ _ _ Hc).
  rewrite Hf in Hi.
  unfold Dict.keys, Dict.values in *.
  rewrite fmap_app, fmap_cons in Hk. rewrite fmap_app, fmap_cons in Hr.
  rewrite fmap_app, fmap_cons in Hi. simpl in Hk, Hr, Hi.
  apply NoDup_app in Hk as (Hk1 & Hk12 & [Hk2 Hk3]%NoDup_cons).
  apply NoDup_app in Hr as (Hr1 & Hr12 & [Hr2 Hr3]%NoDup_cons).
  apply NoDup_app in Hi as (Hi1 & Hi12 & [Hi2 Hi3]%NoDup_cons).
  split; [|split].
  - split.
    + unfold Dict.keys. rewrite fmap_app. apply NoDup_app. split; [done|].
      split; [|done]. intros x Hx Hx2. apply (Hk12 x Hx). by right.
    + unfold Dict.values. rewrite fmap_app. apply NoDup_app. split; [done|].
      split; [|done]. intros x Hx Hx2. apply (Hr12 x Hx). by right.
    + apply Forall_app. done.
    + rewrite follow_app, fmap_app. apply NoDup_app. split; [done|].
      split; [|done]. intros x Hx Hx2. apply (Hi12 x Hx). by right.
  - rewrite fmap_app, elem_of_app. intros [Hx|Hx]; [|done].
    apply (Hk12 k Hx). by left.
  - by exists c.
Qed.

(** Putting a new object under a key that is free keeps it in order. *)
Lemma dict_ok_insert (o : list Claim.t) (n : Z) (k : string) (c : Claim.t)
    (d1 d2 : list (string * nat)) :
  dict_ok o n (d1 ++ d2) -> k ∉ Dict.keys (d1 ++ d2) ->
  Claim.id c = k -> Claim.created_idx c = n + 1 ->
  dict_ok (o ++ [c]) (n + 1) (d1 ++ (k, length o) :: d2) /\
  follow (o ++ [c]) (d1 ++ (k, length o) :: d2) = follow o d1 ++ c :: follow o d2.
Proof.
  intros [Hk Hr He Hi] Hfree Hid Hidx.
  pose proof He as He'. apply Forall_app in He' as [He1 He2].
  assert (Hc : (o ++ [c]) !! length o = Some c) by by apply list_lookup_middle.
  assert (Hf : follow (o ++ [c]) (d1 ++ (k, length o) :: d2)
               = follow o d1 ++ c :: follow o d2).
  { rewrite follow_app, (follow_cons _ _ _ _ _ Hc).
    by rewrite (follow_grow _ _ _ _ He1), (follow_grow _ _ _ _ He2). }
  split; [|done].
  assert (Hfresh : length o ∉ Dict.values (d1 ++ d2)).
  { intros ([k' ref] & Heq & Hin)%list_elem_of_fmap. rewrite Forall_forall in He.
    apply He, entry_ok_lt in Hin. simpl in Heq, Hin. lia. }
  assert (Hnew : n + 1 ∉ Claim.created_idx <$> follow o (d1 ++ d2)).
  { intros (c0 & Heq & Hin)%list_elem_of_fmap.
    pose proof (follow_bound _ _ _ He) as Hb. rewrite Forall_forall in Hb.
    specialize (Hb _ Hin). simpl in Hb. lia. }
  unfold Dict.keys, Dict.values in *. rewrite follow_app in Hi, Hnew.
  rewrite fmap_app in Hk. rewrite fmap_app in Hr. rewrite fmap_app in Hi.
  rewrite fmap_app in Hfree. rewrite fmap_app in Hfresh. rewrite fmap_app in Hnew.
  apply NoDup_app in Hk as (Hk1 & Hk12 & Hk2).
  apply NoDup_app in Hr as (Hr1 & Hr12 & Hr2).
  apply NoDup_app in Hi as (Hi1 & Hi12 & Hi2).
  rewrite elem_of_app in Hfree. rewrite elem_of_app in Hfresh.
  rewrite elem_of_app in Hnew.
  split.
  - unfold Dict.keys. rewrite fmap_app, fmap_cons. apply NoDup_app.
    split; [done|]. split; [|apply NoDup_cons; tauto].
    intros x Hx [->|Hx2]%elem_of_cons; [tauto | by apply (Hk12 x)].
  - unfold Dict.values. rewrite fmap_app, fmap_cons. apply NoDup_app.
    split; [done|]. split; [|apply NoDup_cons; tauto].
    intros x Hx [->|Hx2]%elem_of_cons; [tauto | by apply (Hr12 x)].
  - apply Forall_app. split; [|apply Forall_cons; split].
    + eapply Forall_impl; [exact He1|]. intros kr. apply entry_ok_grow. lia.
    + exists c. simpl. split; [done|]. split; [done | lia].
    + eapply Forall_impl; [exact He2|]. intros kr. apply entry_ok_grow. lia.
  - rewrite Hf, fmap_app, fmap_cons, Hidx. apply NoDup_app.
    split; [done|]. split; [|apply NoDup_cons; tauto].
    intros x Hx [->|Hx2]%elem_of_cons; [tauto | by apply (Hi12 x)].
Qed.

Lemma entry_ok_alter (o : list Claim.t) (n : Z) (f : Claim.t -> Claim.t) (ref : nat)
    (kr : string * nat) :
  (forall c, Claim.id (f c) = Claim.id c) ->
  (forall c, Claim.created_idx (f c) = Claim.created_idx c) ->
  entry_ok o n kr -> entry_ok (alter f ref o) n kr.
Proof.
  intros Hid Hidx (c & Hc & Hk & Hn). rewrite <- (Hid c) in Hk. rewrite <- (Hidx c) in Hn.
  destruct (decide (ref = kr.2)) as [->|Hne].
  - exists (f c). by rewrite list_lookup_alter_eq, Hc.
  - exists c. rewrite list_lookup_alter_ne by done.
    by rewrite (Hid c) in Hk; rewrite (Hidx c) in Hn.
Qed.

Lemma follow_alter_idx (o : list Claim.t) (f : Claim.t -> Claim.t) (ref : nat)
    (d : list (string * nat)) :
  (forall c, Claim.created_idx (f c) = Claim.created_idx c) ->
  Claim.created_idx <$> follow (alter f ref o) d = Claim.created_idx <$> follow o d.
Proof.
  intros Hidx. induction d as [|[k r0] d IH]; [done|].
  rewrite !follow_unfold. destruct (decide (ref = r0)) as [->|Hne].
  - rewrite list_lookup_alter_eq. destruct (o !! r0) as [c0|]; [|exact IH].
    change (f <$> Some c0) with (Some (f c0)). by rewrite !fmap_cons, Hidx, IH.
  - rewrite list_lookup_alter_ne by done. destruct (o !! r0); [|exact IH].
    by rewrite !fmap_cons, IH.
Qed.

(** An assignment to a field other than the id and the creation index,
    through a reference, keeps a dictionary in order. *)
Lemma dict_ok_alter (o : list Claim.t) (n : Z) (f : Claim.t -> Claim.t) (ref : nat)
    (d : list (string * nat)) :
  (forall c, Claim.id (f c) = Claim.id c) ->
  (forall c, Claim.created_idx (f c) = Claim.created_idx c) ->
  dict_ok o n d -> dict_ok (alter f ref o) n d.
Proof.
  intros Hid Hidx [Hk Hr He Hi]. split; [done | done | |].
  - eapply Forall_impl; [exact He|]. intros kr. by apply entry_ok_alter.
  - by rewrite follow_alter_idx.
Qed.

(** ** Operations on the store *)

Lemma claims_values_follow (st : State) :
  claims_values st = follow (objects st) (claims_db st).
Proof. done. Qed.

Lemma get_claim_ref (st : State) (cid : string) (c : Claim.t) :
  get_claim cid st = Some c ->
  exists ref, Dict.get cid (claims_db st) = Some ref /\ objects st !! ref = Some c.
Proof.
  unfold get_claim, deref. destruct (Dict.get cid (claims_db st)) as [ref|]; [|done].
  intros H. by exists ref.
Qed.

Lemma init_state_ok : state_ok init_state.
Proof. split; simpl; constructor. Qed.

Lemma create_state (f : Form.t) (r : Result.t) (now : Z) (st : State) :
  create f r now st =
    (inr tt,
     {| objects := objects st ++ [new_record f r now (next_idx st + 1)];
        claims_db := Dict.set (Form.claim_id f) (length (objects st)) (claims_db st);
        active_claim_id := active_claim_id st;
        next_idx := next_idx st + 1;
        customer_msg := customer_msg st;
        send_status := send_status st;
        sent := sent st |}).
Proof. done. Qed.

(** The record [create] stores is found under its id. *)
Lemma create_get_eq (f : Form.t) (r : Result.t) (now : Z) (st : State) :
  get_claim (Form.claim_id f) (create f r now st).2
    = Some (new_record f r now (next_idx st + 1)).
Proof.
  rewrite create_state. unfold get_claim, deref. simpl.
  rewrite dict_get_set_eq. by apply list_lookup_middle.
Qed.

(** The records under the other ids are what they were. *)
Lemma create_get_ne (f : Form.t) (r : Result.t) (now : Z) (st : State) (cid : string) :
  state_ok st -> cid <> Form.claim_id f ->
  get_claim cid (create f r now st).2 = get_claim cid st.
Proof.
  intros [_ _ He _] Hne. rewrite create_state. unfold get_claim, deref. simpl.
  rewrite dict_get_set_ne by done.
  destruct (Dict.get cid (claims_db st)) as [ref|] eqn:Hg; [|done].
  apply dict_get_elem_of in Hg. rewrite Forall_forall in He.
  apply He, entry_ok_lt in Hg. by apply lookup_app_l.
Qed.

(** Where the new object of an assignment stands among the stored ones. *)
Lemma sorted_reverse_new (o : list Claim.t) (n : Z) (c : Claim.t)
    (d1 d2 : list (string * nat)) :
  dict_ok o n (d1 ++ d2) -> Claim.created_idx c = n + 1 ->
  sorted_reverse Claim.created_idx (follow o d1 ++ c :: follow o d2)
    = c :: sorted_reverse Claim.created_idx (follow o (d1 ++ d2)).
Proof.
  intros [_ _ He _] Hidx. rewrite follow_app. apply sorted_reverse_max.
  rewrite <- follow_app. eapply Forall_impl; [by apply follow_bound|].
  simpl. intros; lia.
Qed.

(** [create] keeps the invariant, and its record comes first in the listing,
    before the records of the other ids in the order they had. *)
Lemma create_spec (f : Form.t) (r : Result.t) (now : Z) (st : State) :
  state_ok st ->
  state_ok (create f r now st).2 /\
  get_sorted_claims (create f r now st).2
    = new_record f r now (next_idx st + 1)
        :: filter (fun c => Claim.id c <> Form.claim_id f) (get_sorted_claims st).
Proof.
  intros Hok. unfold state_ok, get_sorted_claims. rewrite !claims_values_follow.
  rewrite <- sorted_reverse_filter. rewrite create_state. simpl.
  set (c := new_record f r now (next_idx st + 1)).
  set (k := Form.claim_id f). unfold state_ok in Hok.
  destruct (dict_set_spec k (length (objects st)) (claims_db st))
    as [[Hk ->] | (d1 & ref0 & d2 & Hd & Hk1 & ->)].
  - rewrite <- (app_nil_r (claims_db st)) in Hok, Hk.
    destruct (dict_ok_insert _ _ k c _ _ Hok Hk eq_refl eq_refl) as [Hok' Hf].
    split; [done|]. rewrite Hf. rewrite (sorted_reverse_new _ _ c _ _ Hok eq_refl).
    rewrite app_nil_r in *. destruct Hok as [_ _ He _].
    by rewrite (follow_other _ _ _ _ He Hk).
  - rewrite Hd in *.
    destruct (dict_ok_remove _ _ _ _ _ _ Hok) as (Hok0 & Hk & c0 & Hc0 & Hid0 & Hf0).
    destruct (dict_ok_insert _ _ k c _ _ Hok0 Hk eq_refl eq_refl) as [Hok' Hf].
    split; [done|]. rewrite Hf, Hf0.
    rewrite (sorted_reverse_new _ _ c _ _ Hok0 eq_refl).
    rewrite filter_app, filter_cons_False by (intros H; by apply H).
    rewrite <- filter_app, <- follow_app. destruct Hok0 as [_ _ He _].
    by rewrite (follow_other _ _ _ _ He Hk).
Qed.

Lemma delete_claim_state (cid : string) (st : State) :
  delete_claim cid st =
    match Dict.del cid (claims_db st) with
    | None => (inl (KeyError cid), st)
    | Some db =>
        (inr tt,
         {| objects := objects st; claims_db := db;
            active_claim_id := active_claim_id st; next_idx := next_idx st;
            customer_msg := ""; send_status := ""; sent := sent st |})
    end.
Proof. unfold delete_claim, bind, gets. by destruct (Dict.del cid (claims_db st)). Qed.

(** [delete_claim] keeps the invariant; the record of the id is gone, and
    the others are listed in the order they had. *)
Lemma delete_spec (cid : string) (st : State) :
  state_ok st ->
  state_ok (delete_claim cid st).2 /\
  get_sorted_claims (delete_claim cid st).2
    = filter (fun c => Claim.id c <> cid) (get_sorted_claims st) /\
  get_claim cid (delete_claim cid st).2 = None /\
  (forall k, k <> cid -> get_claim k (delete_claim cid st).2 = get_claim k st).
Proof.
  intros Hok. unfold state_ok, get_sorted_claims, get_claim, deref in *.
  rewrite !claims_values_follow, <- sorted_reverse_filter, delete_claim_state.
  destruct (Dict.del cid (claims_db st)) as [db|] eqn:Hdel; simpl.
  - apply dict_del_Some in Hdel as (d1 & ref & d2 & Hd & Hk1 & ->).
    rewrite Hd in *.
    destruct (dict_ok_remove _ _ _ _ _ _ Hok) as (Hok0 & Hk & c0 & Hc0 & Hid0 & Hf0).
    split; [done|]. split; [|split].
    + rewrite Hf0, filter_app, filter_cons_False by (intros H; by apply H).
      rewrite <- filter_app, <- follow_app. destruct Hok0 as [_ _ He _].
      by rewrite (follow_other _ _ _ _ He Hk).
    + apply dict_get_None in Hk. by rewrite Hk.
    + intros k Hne. by rewrite (dict_get_middle_ne cid k).
  - apply dict_del_None in Hdel. split; [done|]. split; [|split].
    + destruct Hok as [_ _ He _]. apply dict_get_None in Hdel.
      by rewrite (follow_other _ _ _ _ He Hdel).
    + by rewrite Hdel.
    + done.
Qed.

Lemma set_status_state (cid v : string) (st : State) :
  set_status cid v st =
    match Dict.get cid (claims_db st) with
    | None => (inl (KeyError cid), st)
    | Some ref =>
        (inr tt, set_objects (alter (Claim.with_status v) ref (objects st)) st)
    end.
Proof. unfold set_status, bind, gets. by destruct (Dict.get cid (claims_db st)). Qed.

Lemma set_status_ok (cid v : string) (st : State) :
  state_ok st -> state_ok (set_status cid v st).2.
Proof.
  intros Hok. rewrite set_status_state.
  destruct (Dict.get cid (claims_db st)) as [ref|]; [|done].
  unfold state_ok. simpl. by apply dict_ok_alter.
Qed.

(** The assignment reaches the record of the id and no other. *)
Lemma set_status_spec (cid v : string) (st : State) (c : Claim.t) :
  state_ok st -> get_claim cid st = Some c ->
  exists st',
    set_status cid v st = (inr tt, st') /\
    get_claim cid st' = Some (Claim.with_status v c) /\
    (forall k, k <> cid -> get_claim k st' = get_claim k st) /\
    claims_db st' = claims_db st /\ next_idx st' = next_idx st.
Proof.
  intros Hok (ref & Hg & Hc)%get_claim_ref. rewrite set_status_state, Hg.
  eexists. split; [done|]. unfold get_claim, deref. simpl. rewrite Hg.
  split; [by rewrite list_lookup_alter_eq, Hc|]. split; [|done].
  intros k Hne. destruct (Dict.get k (claims_db st)) as [ref'|] eqn:Hk; [|done].
  apply list_lookup_alter_ne. intros <-. apply Hne.
  by apply (dict_ok_no_alias _ _ _ _ _ _ Hok Hk Hg).
Qed.

Lemma apply_op_ok (st : State) (op : StoreOp) : state_ok st -> state_ok (apply_op st op).
Proof.
  intros Hok. destruct op as [f r now|cid|cid v]; unfold apply_op; simpl.
  - by apply create_spec.
  - by apply delete_spec.
  - by apply set_status_ok.
Qed.

Lemma apply_ops_ok (ops : list StoreOp) (st : State) :
  state_ok st -> state_ok (apply_ops ops st).
Proof.
  revert st. induction ops as [|op ops IH]; intros st Hok; simpl; [done|].
  by apply IH, apply_op_ok.
Qed.

Lemma apply_op_next_idx (st : State) (op : StoreOp) :
  next_idx (apply_op st op) = if is_create op then next_idx st + 1 else next_idx st.
Proof.
  destruct op as [f r now|cid|cid v]; unfold apply_op; simpl.
  - done.
  - rewrite delete_claim_state. by destruct (Dict.del cid (claims_db st)).
  - rewrite set_status_state. by destruct (Dict.get cid (claims_db st)).
Qed.

Lemma dict_get_split {V} (k : string) (v : V) (d : list (string * V)) :
  Dict.get k d = Some v ->
  exists d1 d2, d = d1 ++ (k, v) :: d2 /\ k ∉ Dict.keys d1.
Proof.
  induction d as [|[k' v'] d IH]; simpl; [done|].
  destruct (String.eqb_spec k k') as [->|Hne].
  - intros [= ->]. exists [], d. split; [done | apply not_elem_of_nil].
  - intros (d1 & d2 & -> & Hk)%IH. exists ((k', v') :: d1), d2.
    split; [done|]. simpl. by rewrite not_elem_of_cons.
Qed.

Lemma follow_none (o : list Claim.t) (n : Z) (k : string) (d : list (string * nat)) :
  Forall (entry_ok o n) d -> k ∉ Dict.keys d ->
  filter (fun c => Claim.id c = k) (follow o d) = [].
Proof.
  induction 1 as [|[k' ref] d (c & H & Hid & _) _ IH]; simpl; [done|].
  rewrite not_elem_of_cons. intros [Hne Hk]. simpl in H, Hid.
  rewrite (follow_cons _ _ _ _ _ H), filter_cons_False, IH; [done..|congruence].
Qed.

(** In a state in order the record [get_claim] finds is the only stored
    record with that id, and its index is at most the counter. *)
Lemma get_claim_only (st : State) (cid : string) (c : Claim.t) :
  state_ok st -> get_claim cid st = Some c ->
  filter (fun x => Claim.id x = cid) (claims_values st) = [c] /\
  Claim.id c = cid /\ Claim.created_idx c <= next_idx st.
Proof.
  intros Hok (ref & Hg & Hc)%get_claim_ref. rewrite claims_values_follow.
  apply dict_get_split in Hg as (d1 & d2 & Hd & _).
  unfold state_ok in Hok. rewrite Hd in *.
  destruct (dict_ok_remove _ _ _ _ _ _ Hok) as (Hok0 & Hk & c0 & Hc0 & Hid0 & ->).
  assert (c0 = c) as -> by congruence.
  destruct Hok as [_ _ He _]. pose proof He as He'.
  apply Forall_app in He' as [_ [(c1 & Hc1 & _ & Hb) _]%Forall_cons_1].
  simpl in Hc1. assert (c1 = c) as -> by congruence.
  split; [|done].
  destruct Hok0 as [_ _ He0 _]. apply Forall_app in He0 as [He1 He2].
  unfold Dict.keys in Hk. rewrite fmap_app, elem_of_app in Hk.
  rewrite filter_app, filter_cons_True by done.
  rewrite (follow_none _ _ _ _ He1), (follow_none _ _ _ _ He2); [done|tauto..].
Qed.

Lemma assigned_idx_increasing (ops : list StoreOp) (st : State) :
  StronglySorted Z.lt (assigned_idx ops st) /\
  Forall (fun i => next_idx st < i) (assigned_idx ops st) /\
  length (assigned_idx ops st) = length (List.filter is_create ops).
Proof.
  revert st. induction ops as [|op ops IH]; intros st.
  - simpl. repeat constructor.
  - destruct (IH (apply_op st op)) as (Hs & Hb & Hl).
    rewrite apply_op_next_idx in Hb.
    destruct op as [f r now|cid|cid v]; cbn [assigned_idx is_create List.filter] in *.
    + assert (Hg : get_claim (Form.claim_id f) (apply_op st (Create f r now))
                   = Some (new_record f r now (next_idx st + 1)))
        by apply create_get_eq.
      rewrite Hg. cbn [new_record Claim.created_idx length].
      split; [|split; [|by rewrite Hl]].
      * constructor; [done|]. eapply Forall_impl; [exact Hb|]. simpl. intros; lia.
      * constructor; [lia|]. eapply Forall_impl; [exact Hb|]. simpl. intros; lia.
    + done.
    + done.
Qed.

(** C5: the creation indices that a run of operations gives to its new
    records increase strictly, each is above the counter the run started
    from, every create gives one, and the indices of the records in the
    store are distinct at any time. *)
Theorem created_idx_strictly_increasing (ops : list StoreOp) (st : State) :
  StronglySorted Z.lt (assigned_idx ops st) /\
  Forall (fun i => next_idx st < i) (assigned_idx ops st) /\
  length (assigned_idx ops st) = length (List.filter is_create ops) /\
  NoDup (Claim.created_idx <$> claims_values (apply_ops ops init_state)).
Proof.
  destruct (assigned_idx_increasing ops st) as (Hs & Hb & Hl).
  repeat split; try done.
  by destruct (apply_ops_ok ops init_state init_state_ok).
Qed.

Lemma get_sorted_claims_sorted (st : State) :
  StronglySorted (reverse_order Claim.created_idx) (get_sorted_claims st) /\
  get_sorted_claims st ≡ₚ claims_values st.
Proof.
  split; [apply sorted_reverse_sorted | apply sorted_reverse_perm].
Qed.

Lemma new_record_idx (f : Form.t) (r : Result.t) (now i j : Z) :
  i = j -> new_record f r now i = new_record f r now j.
Proof. by intros ->. Qed.

(** C6: [get_sorted_claims] lists the stored records by creation index,
    highest first.  From an empty store, creating A, B and C under distinct
    ids gives C, B, A; deleting B then gives C, A; creating D after that
    gives D, C, A. *)
Theorem get_sorted_claims_recency (st : State) (fa fb fc fd : Form.t)
    (ra rb rc rd : Result.t) (ta tb tc td : Z) :
  claims_db st = [] ->
  Form.claim_id fa <> Form.claim_id fb ->
  Form.claim_id fa <> Form.claim_id fc ->
  Form.claim_id fb <> Form.claim_id fc ->
  Form.claim_id fd <> Form.claim_id fa ->
  Form.claim_id fd <> Form.claim_id fc ->
  get_sorted_claims
    (apply_ops [Create fa ra ta; Create fb rb tb; Create fc rc tc] st)
    = [new_record fc rc tc (next_idx st + 3); new_record fb rb tb (next_idx st + 2);
       new_record fa ra ta (next_idx st + 1)] /\
  get_sorted_claims
    (apply_ops [Create fa ra ta; Create fb rb tb; Create fc rc tc;
                Delete (Form.claim_id fb)] st)
    = [new_record fc rc tc (next_idx st + 3); new_record fa ra ta (next_idx st + 1)] /\
  get_sorted_claims
    (apply_ops [Create fa ra ta; Create fb rb tb; Create fc rc tc;
                Delete (Form.claim_id fb); Create fd rd td] st)
    = [new_record fd rd td (next_idx st + 4); new_record fc rc tc (next_idx st + 3);
       new_record fa ra ta (next_idx st + 1)] /\
  (forall s : State,
     StronglySorted (reverse_order Claim.created_idx) (get_sorted_claims s) /\
     get_sorted_claims s ≡ₚ claims_values s).
Proof.
  intros Hdb Hab Hac Hbc Hda Hdc.
  assert (Hok : state_ok st).
  { unfold state_ok. rewrite Hdb. split; simpl; constructor. }
  assert (H0 : get_sorted_claims st = []).
  { unfold get_sorted_claims. by rewrite claims_values_follow, Hdb. }
  set (s1 := apply_op st (Create fa ra ta)).
  set (s2 := apply_op s1 (Create fb rb tb)).
  set (s3 := apply_op s2 (Create fc rc tc)).
  set (s4 := apply_op s3 (Delete (Form.claim_id fb))).
  set (s5 := apply_op s4 (Create fd rd td)).
  change (apply_ops [Create fa ra ta; Create fb rb tb; Create fc rc tc] st) with s3.
  change (apply_ops [Create fa ra ta; Create fb rb tb; Create fc rc tc;
                     Delete (Form.claim_id fb)] st) with s4.
  change (apply_ops [Create fa ra ta; Create fb rb tb; Create fc rc tc;
                     Delete (Form.claim_id fb); Create fd rd td] st) with s5.
  assert (state_ok s1 /\ get_sorted_claims s1
            = new_record fa ra ta (next_idx st + 1)
                :: filter (fun c => Claim.id c <> Form.claim_id fa) (get_sorted_claims st))
    as [Hok1 E1] by exact (create_spec fa ra ta st Hok).
  rewrite H0, filter_nil in E1.
  assert (N1 : next_idx s1 = next_idx st + 1) by apply apply_op_next_idx.
  assert (state_ok s2 /\ get_sorted_claims s2
            = new_record fb rb tb (next_idx s1 + 1)
                :: filter (fun c => Claim.id c <> Form.claim_id fb) (get_sorted_claims s1))
    as [Hok2 E2] by exact (create_spec fb rb tb s1 Hok1).
  rewrite E1, filter_cons_True, filter_nil in E2 by done.
  assert (N2 : next_idx s2 = next_idx st + 2)
    by (unfold s2; rewrite apply_op_next_idx; simpl; lia).
  assert (state_ok s3 /\ get_sorted_claims s3
            = new_record fc rc tc (next_idx s2 + 1)
                :: filter (fun c => Claim.id c <> Form.claim_id fc) (get_sorted_claims s2))
    as [Hok3 E3] by exact (create_spec fc rc tc s2 Hok2).
  rewrite E2, !filter_cons_True, filter_nil in E3 by done.
  assert (N3 : next_idx s3 = next_idx st + 3)
    by (unfold s3; rewrite apply_op_next_idx; simpl; lia).
  assert (state_ok s4 /\ get_sorted_claims s4
            = filter (fun c => Claim.id c <> Form.claim_id fb) (get_sorted_claims s3))
    as [Hok4 E4]
    by (destruct (delete_spec (Form.claim_id fb) s3 Hok3) as (? & ? & _); by split).
  rewrite E3, filter_cons_True, filter_cons_False, filter_cons_True, filter_nil in E4
    by (simpl; congruence).
  assert (N4 : next_idx s4 = next_idx st + 3)
    by (unfold s4; rewrite apply_op_next_idx; simpl; lia).
  assert (get_sorted_claims s5
            = new_record fd rd td (next_idx s4 + 1)
                :: filter (fun c => Claim.id c <> Form.claim_id fd) (get_sorted_claims s4))
    as E5 by exact (proj2 (create_spec fd rd td s4 Hok4)).
  rewrite E4, !filter_cons_True, filter_nil in E5 by (simpl; congruence).
  rewrite E3, E4, E5.
  rewrite (new_record_idx fb rb tb (next_idx s1 + 1) (next_idx st + 2)) by lia.
  rewrite (new_record_idx fc rc tc (next_idx s2 + 1) (next_idx st + 3)) by lia.
  rewrite (new_record_idx fd rd td (next_idx s4 + 1) (next_idx st + 4)) by lia.
  repeat split; try done; apply get_sorted_claims_sorted.
Qed.

Lemma get_sorted_claims_recency_witness :
  get_sorted_claims
    (apply_ops [Create (sample_form "A") (sample_result "A" "- severity: Low") 1;
                Create (sample_form "B") (sample_result "B" "- severity: High") 2;
                Create (sample_form "C") (sample_result "C" "- severity: Medium") 3;
                Delete "B";
                Create (sample_form "D") (sample_result "D" "- severity: Low") 4]
       init_state)
  = [new_record (sample_form "D") (sample_result "D" "- severity: Low") 4 4;
     new_record (sample_form "C") (sample_result "C" "- severity: Medium") 3 3;
     new_record (sample_form "A") (sample_result "A" "- severity: Low") 1 1].
Proof.
  apply (get_sorted_claims_recency init_state
           (sample_form "A") (sample_form "B") (sample_form "C") (sample_form "D")
           (sample_result "A" "- severity: Low") (sample_result "B" "- severity: High")
           (sample_result "C" "- severity: Medium") (sample_result "D" "- severity: Low")
           1 2 3 4); simpl; congruence.
Defined.

Lemma filter_key_absent (k : string) (l : list string) :
  k ∉ l -> filter (fun x => x = k) l = [].
Proof.
  induction l as [|x l IH]; [done|]. rewrite not_elem_of_cons. intros [Hne Hk].
  rewrite filter_cons_False by congruence. auto.
Qed.

(** A key that [get] finds stands once among the keys. *)
Lemma dict_key_once (o : list Claim.t) (n : Z) (d : list (string * nat))
    (k : string) (ref : nat) :
  dict_ok o n d -> Dict.get k d = Some ref ->
  filter (fun x => x = k) (Dict.keys d) = [k].
Proof.
  intros Hok (d1 & d2 & -> & _)%dict_get_split.
  destruct (dict_ok_remove _ _ _ _ _ _ Hok) as (_ & Hk & _).
  unfold Dict.keys in *. rewrite fmap_app, elem_of_app in Hk.
  rewrite fmap_app, fmap_cons, filter_app, filter_cons_True by done.
  rewrite !filter_key_absent by tauto. done.
Qed.

(** C7: [save_claim_record] under an id that is taken raises nothing and
    puts the new record in the place of the old one: after two creates
    under one id the id stands once among the keys, the store holds one
    record with that id and it is the record of the second create. *)
Theorem create_twice_overwrites (st : State) (f1 f2 : Form.t) (r1 r2 : Result.t)
    (t1 t2 : Z) :
  state_ok st -> Form.claim_id f1 = Form.claim_id f2 ->
  (create f1 r1 t1 st).1 = inr tt /\
  (create f2 r2 t2 (create f1 r1 t1 st).2).1 = inr tt /\
  get_claim (Form.claim_id f2) (create f2 r2 t2 (create f1 r1 t1 st).2).2
    = Some (new_record f2 r2 t2 (next_idx st + 2)) /\
  filter (fun k => k = Form.claim_id f2)
    (Dict.keys (claims_db (create f2 r2 t2 (create f1 r1 t1 st).2).2))
    = [Form.claim_id f2] /\
  filter (fun c => Claim.id c = Form.claim_id f2)
    (claims_values (create f2 r2 t2 (create f1 r1 t1 st).2).2)
    = [new_record f2 r2 t2 (next_idx st + 2)].
Proof.
  intros Hok Hid.
  destruct (create_spec f1 r1 t1 st Hok) as [Hok1 _].
  destruct (create_spec f2 r2 t2 _ Hok1) as [Hok2 _].
  pose proof (create_get_eq f2 r2 t2 (create f1 r1 t1 st).2) as Hg.
  rewrite (new_record_idx f2 r2 t2 _ (next_idx st + 2)) in Hg by (simpl; lia).
  split; [done|]. split; [done|]. split; [done|]. split.
  - destruct (get_claim_ref _ _ _ Hg) as (ref & Hr & _).
    by apply (dict_key_once _ _ _ _ _ Hok2 Hr).
  - by apply get_claim_only.
Qed.

Lemma create_twice_overwrites_witness :
  get_claim "CLM-001"
    (create (sample_form "CLM-001") (sample_result "CLM-001" "- severity: Low") 20
       (create (sample_form "CLM-001") (sample_result "CLM-001" "- severity: High") 10
          init_state).2).2
  = Some (new_record (sample_form "CLM-001")
            (sample_result "CLM-001" "- severity: Low") 20 2).
Proof.
  apply (create_twice_overwrites init_state (sample_form "CLM-001")
           (sample_form "CLM-001") (sample_result "CLM-001" "- severity: High")
           (sample_result "CLM-001" "- severity: Low") 10 20).
  - split; simpl; constructor.
  - reflexivity.
Defined.

(** C8: assigning a status through the record of an id changes the status
    of that record and nothing else: its priority and its four texts, like
    its other fields, are what they were, the priority is not derived
    again, and the records of the other ids are untouched. *)
Theorem set_status_changes_status_only (st : State) (cid v : string) (c : Claim.t) :
  state_ok st -> get_claim cid st = Some c ->
  exists st',
    set_status cid v st = (inr tt, st') /\
    get_claim cid st' = Some (Claim.with_status v c) /\
    Claim.status (Claim.with_status v c) = v /\
    Claim.priority (Claim.with_status v c) = Claim.priority c /\
    Claim.triage (Claim.with_status v c) = Claim.triage c /\
    Claim.damage (Claim.with_status v c) = Claim.damage c /\
    Claim.evidence (Claim.with_status v c) = Claim.evidence c /\
    Claim.settlement (Claim.with_status v c) = Claim.settlement c /\
    Claim.created_idx (Claim.with_status v c) = Claim.created_idx c /\
    Claim.created_at (Claim.with_status v c) = Claim.created_at c /\
    (forall k, k <> cid -> get_claim k st' = get_claim k st) /\
    claims_db st' = claims_db st /\ next_idx st' = next_idx st.
Proof.
  intros Hok Hc.
  destruct (set_status_spec cid v st c Hok Hc) as (st' & Hs & Hg & Hother & Hdb & Hn).
  exists st'. repeat split; done.
Qed.

Lemma set_status_changes_status_only_witness :
  exists st',
    set_status "CLM-001" "Completed"
      (create (sample_form "CLM-001") (sample_result "CLM-001" "- severity: High") 10
         init_state).2 = (inr tt, st') /\
    get_claim "CLM-001" st'
      = Some (Claim.with_status "Completed"
                (new_record (sample_form "CLM-001")
                   (sample_result "CLM-001" "- severity: High") 10 1)).
Proof.
  destruct (set_status_changes_status_only
              (create (sample_form "CLM-001")
                 (sample_result "CLM-001" "- severity: High") 10 init_state).2
              "CLM-001" "Completed"
              (new_record (sample_form "CLM-001")
                 (sample_result "CLM-001" "- severity: High") 10 1))
    as (st' & Hs & Hg & _).
  - split; simpl; repeat constructor.
    + apply not_elem_of_nil.
    + apply not_elem_of_nil.
    + exists (new_record (sample_form "CLM-001")
                (sample_result "CLM-001" "- severity: High") 10 1).
      simpl. repeat split; lia.
    + apply not_elem_of_nil.
  - reflexivity.
  - exists st'. split; assumption.
Defined.

(** C10: creating a record under an id that is taken gives the new record
    the next creation index, above the old one's, and the time of this
    create; the id is the same, and the new record is first in the
    listing. *)
Theorem overwrite_moves_to_front (st : State) (f : Form.t) (r : Result.t) (now : Z)
    (old : Claim.t) :
  state_ok st -> get_claim (Form.claim_id f) st = Some old ->
  get_claim (Form.claim_id f) (create f r now st).2
    = Some (new_record f r now (next_idx st + 1)) /\
  Claim.created_idx old < Claim.created_idx (new_record f r now (next_idx st + 1)) /\
  Claim.created_at (new_record f r now (next_idx st + 1)) = now /\
  Claim.id (new_record f r now (next_idx st + 1)) = Claim.id old /\
  head (get_sorted_claims (create f r now st).2)
    = Some (new_record f r now (next_idx st + 1)) /\
  get_sorted_claims (create f r now st).2
    = new_record f r now (next_idx st + 1)
        :: filter (fun c => Claim.id c <> Form.claim_id f) (get_sorted_claims st).
Proof.
  intros Hok Hold.
  destruct (get_claim_only _ _ _ Hok Hold) as (_ & Hid & Hb).
  destruct (create_spec f r now st Hok) as [_ Hs].
  split; [apply create_get_eq|]. split; [simpl; lia|]. split; [done|].
  split; [by rewrite Hid|]. split; [by rewrite Hs | done].
Qed.

Lemma overwrite_moves_to_front_witness :
  head (get_sorted_claims
          (create (sample_form "A") (sample_result "A" "- severity: Low") 30
             (apply_ops [Create (sample_form "A") (sample_result "A" "- severity: High") 10;
                         Create (sample_form "B") (sample_result "B" "- severity: Low") 20]
                init_state)).2)
  = Some (new_record (sample_form "A") (sample_result "A" "- severity: Low") 30 3).
Proof.
  apply (overwrite_moves_to_front
           (apply_ops [Create (sample_form "A") (sample_result "A" "- severity: High") 10;
                       Create (sample_form "B") (sample_result "B" "- severity: Low") 20]
              init_state)
           (sample_form "A") (sample_result "A" "- severity: Low") 30
           (new_record (sample_form "A") (sample_result "A" "- severity: High") 10 1)).
  - apply apply_ops_ok, init_state_ok.
  - reflexivity.
Defined.

(** ** The handlers and the store *)

Lemma state_ok_store (st st' : State) :
  objects st' = objects st -> claims_db st' = claims_db st ->
  next_idx st' = next_idx st -> state_ok st -> state_ok st'.
Proof. unfold state_ok. by intros -> -> ->. Qed.

Lemma state_ok_session (st st' : State) :
  session st' = session st -> state_ok st -> state_ok st'.
Proof. unfold session. intros [= Ho Hd _ Hn _ _]. by apply state_ok_store. Qed.

Section HandlerFacts.

Variable endpoint : list Request -> Request -> ApiResult.

Lemma truthy_true (s : string) : s <> "" -> PyStr.truthy s = true.
Proof. by destruct s. Qed.

Lemma run_pipeline_session (f : Form.t) (st : State) :
  session (run_pipeline endpoint f st).2 = session st.
Proof.
  unfold run_pipeline, run_claim_pipeline_groq, bind.
  pose proof (stage_call_session endpoint f Triage st) as H1. simpl in H1.
  destruct (triage_agent_groq _ _ _ st) as [[e1|t1] st1]; simpl in H1; [done|].
  pose proof (stage_call_session endpoint f Damage st1) as H2. simpl in H2.
  destruct (damage_agent_groq _ _ _ _ _ st1) as [[e2|t2] st2]; simpl in H2;
    [simpl; congruence|].
  pose proof (stage_call_session endpoint f Evidence st2) as H3. simpl in H3.
  destruct (evidence_agent_groq _ _ _ st2) as [[e3|t3] st3]; simpl in H3;
    [simpl; congruence|].
  pose proof (stage_call_session endpoint f Settlement st3) as H4. simpl in H4.
  destruct (settlement_agent_groq _ _ _ _ st3) as [[e4|t4] st4]; simpl in H4;
    simpl; congruence.
Qed.


Lemma main_submitted_ok (f : Form.t) (now : Z) (st : State) :
  state_ok st -> state_ok (main_submitted endpoint f now st).2.
Proof.
  intros Hok. unfold main_submitted.
  destruct (negb _ || negb _)%bool; [done|].
  unfold bind at 1. fold (run_pipeline endpoint f).
  pose proof (run_pipeline_session f st) as Hs.
  destruct (run_pipeline endpoint f st) as [[e|r] st1]; simpl in Hs.
  - by apply (state_ok_session st).
  - apply (state_ok_session _ _ Hs) in Hok.
    apply (state_ok_store (create f r now st1).2); [done..|].
    by apply create_spec.
Qed.

(** The Completed button of the review panel assigns the status through the
    record of the active claim. *)
Lemma mark_as_completed (st : State) (cid : string) (c : Claim.t) :
  state_ok st -> active_claim_id st = Some cid -> cid <> "" ->
  get_claim cid st = Some c ->
  exists st',
    render_claim_intelligence endpoint (Some MarkAsCompleted) st
      = (inr (Success ("Claim " +:+ cid +:+ " marked as Completed.")), st') /\
    get_claim cid st' = Some (Claim.with_status "Completed" c) /\
    (forall k, k <> cid -> get_claim k st' = get_claim k st) /\
    active_claim_id st' = None.
Proof.
  intros Hok Hact Hne Hc.
  destruct (set_status_spec cid "Completed" st c Hok Hc) as (st1 & Hs & Hg & Ho & _).
  destruct (get_claim_ref _ _ _ Hc) as (ref & Hr & _).
  unfold render_claim_intelligence, bind, gets. rewrite Hact, Hr, (truthy_true _ Hne).
  rewrite bool_decide_true by eauto. simpl. rewrite Hs.
  eexists. split; [reflexivity|]. split; [exact Hg|]. split; [exact Ho | done].
Qed.

(** The panel takes an empty claim id for no selection: a record stored
    under the empty id cannot be reviewed. *)
Lemma render_claim_intelligence_empty_id (clicked : option ReviewButton) (st : State) :
  active_claim_id st = Some "" ->
  render_claim_intelligence endpoint clicked st = (inr (Info no_active_claim), st).
Proof. intros Hact. unfold render_claim_intelligence, bind, gets. by rewrite Hact. Qed.

(** The review panel keeps the invariant, whatever button is pressed. *)
Lemma render_claim_intelligence_ok (clicked : option ReviewButton) (st : State) :
  state_ok st -> state_ok (render_claim_intelligence endpoint clicked st).2.
Proof.
  intros Hok. unfold render_claim_intelligence, bind, gets.
  destruct (active_claim_id st) as [cid|]; [|done].
  destruct (negb _ || negb _)%bool; [done|].
  destruct clicked as [[]|]; try done.
  - destruct (get_claim cid st) as [c|]; [|done].
    unfold customer_message_agent_groq. rewrite call_groq_eq.
    destruct (completion_text _); simpl; by apply (state_ok_store st).
  - destruct (PyStr.truthy (customer_msg st)); simpl; by apply (state_ok_store st).
  - pose proof (set_status_ok cid "Reviewing" st Hok) as H.
    destruct (set_status cid "Reviewing" st) as [[e|[]] st1]; simpl in *; [done|].
    by apply (state_ok_store st1).
  - pose proof (set_status_ok cid "Completed" st Hok) as H.
    destruct (set_status cid "Completed" st) as [[e|[]] st1]; simpl in *; [done|].
    by apply (state_ok_store st1).
Qed.

End HandlerFacts.

(** * Further properties *)

(** ** Strings, again *)



















Lemma str_app_assoc (a b c : string) : (a +:+ b) +:+ c = a +:+ b +:+ c.
Proof. induction a as [|x a IH]; simpl; [done | by rewrite IH]. Qed.

Lemma contains_app (kw a b : string) :
  PyStr.contains kw a = true \/ PyStr.contains kw b = true ->
  PyStr.contains kw (a +:+ b) = true.
Proof.
  rewrite !contains_spec. intros [(pre & post & ->) | (pre & post & ->)].
  - exists pre, (post +:+ b). by rewrite !str_app_assoc.
  - exists (a +:+ pre), post. by rewrite !str_app_assoc.
Qed.

(** X3: joining two texts never lowers the label: the label of the joined
    text ranks at least as high as the label of either part. *)
Theorem extract_priority_label_append (a b : string) :
  (Nat.max (priority_rank (extract_priority_label a))
           (priority_rank (extract_priority_label b))
   <= priority_rank (extract_priority_label (a +:+ b)))%nat.
Proof.
  unfold extract_priority_label. rewrite lower_app.
  pose proof (contains_app "high" (PyStr.lower a) (PyStr.lower b)) as Hh.
  pose proof (contains_app "medium" (PyStr.lower a) (PyStr.lower b)) as Hm.
  pose proof (contains_app "low" (PyStr.lower a) (PyStr.lower b)) as Hl.
  destruct (PyStr.contains "high" (PyStr.lower a)),
           (PyStr.contains "high" (PyStr.lower b)),
           (PyStr.contains "high" (PyStr.lower a +:+ PyStr.lower b)),
           (PyStr.contains "medium" (PyStr.lower a)),
           (PyStr.contains "medium" (PyStr.lower b)),
           (PyStr.contains "medium" (PyStr.lower a +:+ PyStr.lower b)),
           (PyStr.contains "low" (PyStr.lower a)),
           (PyStr.contains "low" (PyStr.lower b)),
           (PyStr.contains "low" (PyStr.lower a +:+ PyStr.lower b));
    try discriminate (Hh (or_introl eq_refl));
    try discriminate (Hh (or_intror eq_refl));
    try discriminate (Hm (or_introl eq_refl));
    try discriminate (Hm (or_intror eq_refl));
    try discriminate (Hl (or_introl eq_refl));
    try discriminate (Hl (or_intror eq_refl));
    vm_compute; lia.
Qed.

(** ** The pipeline, again *)



Section PipelineMore.

Variable endpoint : list Request -> Request -> ApiResult.

Lemma stage_call_sent (f : Form.t) (s : Stage) (st : State) :
  sent (stage_call endpoint f s st).2 = sent st ++ [stage_request f s].
Proof. by rewrite stage_call_eq. Qed.

(** The state a pipeline run ends in, by the stage that fails. *)
Lemma run_pipeline_sent (f : Form.t) (st : State) :
  sent (run_pipeline endpoint f st).2 =
    sent st ++ (stage_request f <$>
                  match first_failure endpoint f pipeline_stages st with
                  | Some (s, _, _) => stages_upto s
                  | None => pipeline_stages
                  end).
Proof.
  unfold run_pipeline, run_claim_pipeline_groq, pipeline_stages, bind.
  cbn [first_failure].
  change (triage_agent_groq endpoint (Form.claim_type f) (Form.description f))
    with (stage_call endpoint f Triage).
  pose proof (stage_call_sent f Triage st) as H1.
  destruct (stage_call endpoint f Triage st) as [[e1|t1] st1]; simpl in H1;
    [simpl; by rewrite H1|].
  change (damage_agent_groq endpoint (Form.claim_type f) (Form.car_model f)
            (Form.description f) (Form.photo f))
    with (stage_call endpoint f Damage).
  pose proof (stage_call_sent f Damage st1) as H2.
  destruct (stage_call endpoint f Damage st1) as [[e2|t2] st2]; simpl in H2;
    [simpl; by rewrite H2, H1, <- app_assoc|].
  change (evidence_agent_groq endpoint (Form.description f) (Form.photo f))
    with (stage_call endpoint f Evidence).
  pose proof (stage_call_sent f Evidence st2) as H3.
  destruct (stage_call endpoint f Evidence st2) as [[e3|t3] st3]; simpl in H3;
    [simpl; by rewrite H3, H2, H1, <- !app_assoc|].
  change (settlement_agent_groq endpoint (Form.claim_type f) (Form.car_model f)
            (Form.description f))
    with (stage_call endpoint f Settlement).
  pose proof (stage_call_sent f Settlement st3) as H4.
  destruct (stage_call endpoint f Settlement st3) as [[e4|t4] st4]; simpl in H4;
    simpl; by rewrite H4, H3, H2, H1, <- !app_assoc.
Qed.

(** X5: a pipeline run makes the requests of its stages in the order
    triage, damage, evidence, settlement, one each, and none after the
    first call that raises. *)
Theorem run_pipeline_requests (f : Form.t) (st : State) :
  match first_failure endpoint f pipeline_stages st with
  | Some (s, _, _) =>
      sent (run_pipeline endpoint f st).2
        = sent st ++ (stage_request f <$> stages_upto s)
  | None =>
      sent (run_pipeline endpoint f st).2
        = sent st ++ [stage_request f Triage; stage_request f Damage;
                      stage_request f Evidence; stage_request f Settlement]
  end.
Proof.
  pose proof (run_pipeline_sent f st) as H.
  by destruct (first_failure endpoint f pipeline_stages st) as [[[s e] st']|].
Qed.




End PipelineMore.

(** ** The store, again *)


Lemma dict_del_set_fresh {V} (k : string) (v : V) (d : list (string * V)) :
  k ∉ Dict.keys d -> Dict.del k (Dict.set k v d) = Some d.
Proof.
  induction d as [|[k' v'] d IH]; simpl.
  - by rewrite String.eqb_refl.
  - rewrite not_elem_of_cons. intros [Hne Hk].
    destruct (String.eqb_spec k k'); [done|]. simpl.
    destruct (String.eqb_spec k k'); [done|]. by rewrite IH.
Qed.

Lemma dict_get_of_elem {V} (k : string) (v : V) (d : list (string * V)) :
  NoDup (Dict.keys d) -> (k, v) ∈ d -> Dict.get k d = Some v.
Proof.
  induction d as [|[k' v'] d IH]; simpl; [by intros _ ?%elem_of_nil|].
  intros [Hk Hd]%NoDup_cons [[= -> ->]|Hin]%elem_of_cons.
  - by rewrite String.eqb_refl.
  - destruct (String.eqb_spec k k') as [->|Hne]; [|auto].
    exfalso. apply Hk. apply list_elem_of_fmap. by exists (k', v).
Qed.



(** X10: deleting a stored claim returns, takes that record out of the
    store and out of the listing and leaves every other record, the
    counter and the active claim as they are; the message draft and the
    send note are cleared, and the invariant holds after it. *)
Theorem delete_claim_removes_record (st : State) (cid : string) (c : Claim.t) :
  state_ok st -> get_claim cid st = Some c ->
  exists st',
    delete_claim cid st = (inr tt, st') /\
    get_claim cid st' = None /\
    (forall k, k <> cid -> get_claim k st' = get_claim k st) /\
    get_sorted_claims st' = filter (fun x => Claim.id x <> cid) (get_sorted_claims st) /\
    next_idx st' = next_idx st /\
    active_claim_id st' = active_claim_id st /\
    customer_msg st' = "" /\ send_status st' = "" /\
    state_ok st'.
Proof.
  intros Hok Hc. destruct (delete_spec cid st Hok) as (Hok' & Hs & Hg & Ho).
  destruct (get_claim_ref _ _ _ Hc) as (ref & Hr & _).
  rewrite delete_claim_state in *.
  destruct (Dict.del cid (claims_db st)) as [db|] eqn:Hdel.
  - eexists. split; [reflexivity|]. split; [exact Hg|]. split; [exact Ho|].
    split; [exact Hs|]. split; [done|]. split; [done|]. split; [done|].
    split; [done | exact Hok'].
  - apply dict_del_None in Hdel. congruence.
Qed.

Lemma delete_claim_removes_record_witness :
  exists st',
    delete_claim "A"
      (apply_ops [Create (sample_form "A") (sample_result "A" "- severity: High") 10;
                  Create (sample_form "B") (sample_result "B" "- severity: Low") 20]
         init_state) = (inr tt, st') /\
    get_claim "A" st' = None.
Proof.
  destruct (delete_claim_removes_record
              (apply_ops [Create (sample_form "A") (sample_result "A" "- severity: High") 10;
                          Create (sample_form "B") (sample_result "B" "- severity: Low") 20]
                 init_state)
              "A"
              (new_record (sample_form "A") (sample_result "A" "- severity: High") 10 1))
    as (st' & Hd & Hg & _).
  - apply apply_ops_ok, init_state_ok.
  - reflexivity.
  - exists st'. split; assumption.
Defined.

(** X11: creating a record under an id that is free and deleting it again
    gives back the dictionary, every lookup and the listing; the counter
    stays advanced. *)
Theorem create_then_delete (st : State) (f : Form.t) (r : Result.t) (now : Z) :
  state_ok st -> Form.claim_id f ∉ Dict.keys (claims_db st) ->
  claims_db (delete_claim (Form.claim_id f) (create f r now st).2).2 = claims_db st /\
  (forall k, get_claim k (delete_claim (Form.claim_id f) (create f r now st).2).2
             = get_claim k st) /\
  get_sorted_claims (delete_claim (Form.claim_id f) (create f r now st).2).2
    = get_sorted_claims st /\
  next_idx (delete_claim (Form.claim_id f) (create f r now st).2).2 = next_idx st + 1.
Proof.
  intros [_ _ He _] Hk. rewrite delete_claim_state, create_state.
  cbn [snd claims_db]. rewrite (dict_del_set_fresh _ _ _ Hk). cbn [snd].
  split; [done|]. split; [|split; [|done]].
  - intros k. unfold get_claim, deref. simpl.
    destruct (Dict.get k (claims_db st)) as [ref|] eqn:Hg; [|done].
    apply dict_get_elem_of in Hg. rewrite Forall_forall in He.
    apply He, entry_ok_lt in Hg. by apply lookup_app_l.
  - unfold get_sorted_claims. rewrite !claims_values_follow. simpl.
    by rewrite (follow_grow _ _ _ _ He).
Qed.

Lemma create_then_delete_witness :
  get_sorted_claims
    (delete_claim "B"
       (create (sample_form "B") (sample_result "B" "- severity: Low") 20
          (create (sample_form "A") (sample_result "A" "- severity: High") 10
             init_state).2).2).2
  = get_sorted_claims
      (create (sample_form "A") (sample_result "A" "- severity: High") 10 init_state).2.
Proof.
  apply (create_then_delete
           (create (sample_form "A") (sample_result "A" "- severity: High") 10
              init_state).2
           (sample_form "B") (sample_result "B" "- severity: Low") 20).
  - apply (create_spec (sample_form "A") (sample_result "A" "- severity: High") 10
             init_state init_state_ok).
  - simpl. rewrite not_elem_of_cons. split; [discriminate | apply not_elem_of_nil].
Defined.

(** X12: creating a record leaves the records of the other ids as they are
    and keeps the invariant; under an id that is free the new record goes
    in front of the listing, which is otherwise what it was. *)
Theorem create_keeps_other_records (st : State) (f : Form.t) (r : Result.t) (now : Z) :
  state_ok st ->
  state_ok (create f r now st).2 /\
  (forall k, k <> Form.claim_id f -> get_claim k (create f r now st).2 = get_claim k st) /\
  (Form.claim_id f ∉ Dict.keys (claims_db st) ->
   get_sorted_claims (create f r now st).2
     = new_record f r now (next_idx st + 1) :: get_sorted_claims st).
Proof.
  intros Hok. destruct (create_spec f r now st Hok) as [Hok' Hs].
  split; [done|]. split; [intros k Hk; by apply create_get_ne|].
  intros Hfree. rewrite Hs. f_equal.
  unfold get_sorted_claims. rewrite <- sorted_reverse_filter, claims_values_follow.
  destruct Hok as [_ _ He _]. by rewrite (follow_other _ _ _ _ He Hfree).
Qed.

Lemma create_keeps_other_records_witness :
  get_claim "A"
    (create (sample_form "B") (sample_result "B" "- severity: Low") 20
       (create (sample_form "A") (sample_result "A" "- severity: High") 10
          init_state).2).2
  = get_claim "A"
      (create (sample_form "A") (sample_result "A" "- severity: High") 10 init_state).2.
Proof.
  apply (create_keeps_other_records
           (create (sample_form "A") (sample_result "A" "- severity: High") 10
              init_state).2
           (sample_form "B") (sample_result "B" "- severity: Low") 20).
  - apply (create_spec (sample_form "A") (sample_result "A" "- severity: High") 10
             init_state init_state_ok).
  - discriminate.
Defined.

Lemma follow_length (o : list Claim.t) (n : Z) (d : list (string * nat)) :
  Forall (entry_ok o n) d -> length (follow o d) = length d.
Proof.
  induction 1 as [|[k ref] d (c & H & _) _ IH]; [done|]. simpl in H.
  rewrite (follow_cons _ _ _ _ _ H). simpl. by rewrite IH.
Qed.

(** A record of the listing is the record found under its id. *)
Lemma listed_lookup (st : State) (c : Claim.t) :
  state_ok st -> c ∈ get_sorted_claims st -> get_claim (Claim.id c) st = Some c.
Proof.
  intros [Hk _ He _]. unfold get_sorted_claims.
  rewrite sorted_reverse_perm. unfold claims_values, Dict.values.
  rewrite list_elem_of_omap.
  intros (ref & ([k ref'] & -> & Hin)%list_elem_of_fmap & Hd). simpl in Hd.
  rewrite Forall_forall in He. destruct (He _ Hin) as (c' & Hc' & Hid & _).
  simpl in Hc', Hid. unfold deref in Hd. assert (c' = c) as -> by congruence.
  unfold get_claim. rewrite Hid. by rewrite (dict_get_of_elem _ _ _ Hk Hin).
Qed.

Lemma lookup_listed (st : State) (cid : string) (c : Claim.t) :
  get_claim cid st = Some c -> c ∈ get_sorted_claims st.
Proof.
  intros (ref & Hr & Hc)%get_claim_ref. unfold get_sorted_claims.
  rewrite sorted_reverse_perm. unfold claims_values, Dict.values.
  rewrite list_elem_of_omap. exists ref. split; [|done].
  apply list_elem_of_fmap. exists (cid, ref).
  split; [done | by apply dict_get_elem_of].
Qed.

(** X13: in a state in order the listing and the lookup agree: a record is
    listed exactly when it is the record found under its id, and the
    listing has one record per key. *)
Theorem listing_matches_lookup (st : State) :
  state_ok st ->
  (forall c, c ∈ get_sorted_claims st <-> get_claim (Claim.id c) st = Some c) /\
  length (get_sorted_claims st) = length (claims_db st).
Proof.
  intros Hok. split.
  - intros c. split; [by apply listed_lookup | apply lookup_listed].
  - destruct Hok as [_ _ He _]. unfold get_sorted_claims.
    rewrite sorted_reverse_perm, claims_values_follow. by eapply follow_length.
Qed.

Lemma listing_matches_lookup_witness :
  length (get_sorted_claims
            (apply_ops [Create (sample_form "A") (sample_result "A" "- severity: High") 10;
                        Create (sample_form "B") (sample_result "B" "- severity: Low") 20]
               init_state))
  = length (claims_db
              (apply_ops [Create (sample_form "A") (sample_result "A" "- severity: High") 10;
                          Create (sample_form "B") (sample_result "B" "- severity: Low") 20]
                 init_state)).
Proof.
  apply listing_matches_lookup. apply apply_ops_ok, init_state_ok.
Defined.

Lemma strongly_sorted_strict {A} (key : A -> Z) (l : list A) :
  StronglySorted (reverse_order key) l -> NoDup (key <$> l) ->
  StronglySorted (fun x y => key y < key x) l.
Proof.
  induction 1 as [|x l Hl IH Hx]; [constructor|].
  rewrite fmap_cons. intros [Hnx Hnd]%NoDup_cons. constructor; [auto|].
  apply Forall_forall. intros y Hy. rewrite Forall_forall in Hx.
  specialize (Hx y Hy). unfold reverse_order in Hx.
  assert (key y <> key x); [|lia].
  intros Heq. apply Hnx. rewrite <- Heq. by apply list_elem_of_fmap_2.
Qed.

(** X14: in a state in order the listing has no ties: the creation indices
    go strictly down along it, and none is above the counter. *)
Theorem listing_strictly_descending (st : State) :
  state_ok st ->
  StronglySorted (fun x y => Claim.created_idx y < Claim.created_idx x)
    (get_sorted_claims st) /\
  Forall (fun c => Claim.created_idx c <= next_idx st) (get_sorted_claims st).
Proof.
  intros [_ _ He Hi]. unfold get_sorted_claims. split.
  - apply strongly_sorted_strict; [apply sorted_reverse_sorted|].
    by rewrite sorted_reverse_perm.
  - rewrite sorted_reverse_perm, claims_values_follow. by apply follow_bound.
Qed.

Lemma listing_strictly_descending_witness :
  StronglySorted (fun x y => Claim.created_idx y < Claim.created_idx x)
    (get_sorted_claims
       (apply_ops [Create (sample_form "A") (sample_result "A" "- severity: High") 10;
                   Create (sample_form "B") (sample_result "B" "- severity: Low") 20]
          init_state)).
Proof.
  apply listing_strictly_descending. apply apply_ops_ok, init_state_ok.
Defined.

Lemma with_status_with_status (v1 v2 : string) (c : Claim.t) :
  Claim.with_status v2 (Claim.with_status v1 c) = Claim.with_status v2 c.
Proof. done. Qed.

(** X15: of two status assignments under one id the last one wins: the
    result and the state are those of the second alone. *)
Theorem set_status_last_wins (st : State) (cid v1 v2 : string) :
  set_status cid v2 (set_status cid v1 st).2 = set_status cid v2 st.
Proof.
  rewrite !set_status_state.
  destruct (Dict.get cid (claims_db st)) as [ref|] eqn:Hg; simpl; rewrite Hg; [|done].
  unfold set_objects. simpl. rewrite list_alter_alter_eq. do 3 f_equal.
Qed.

(** X16: assigning to a record the status it has changes nothing at all. *)
Theorem set_status_same_is_noop (st : State) (cid : string) (c : Claim.t) :
  get_claim cid st = Some c ->
  set_status cid (Claim.status c) st = (inr tt, st).
Proof.
  intros (ref & Hg & Hc)%get_claim_ref. rewrite set_status_state, Hg. f_equal.
  assert (alter (Claim.with_status (Claim.status c)) ref (objects st) = objects st) as Ha.
  { apply list_eq. intros i. destruct (decide (ref = i)) as [<-|Hne].
    - rewrite list_lookup_alter_eq, Hc. simpl. f_equal. by destruct c.
    - by rewrite list_lookup_alter_ne. }
  unfold set_objects. rewrite Ha. by destruct st.
Qed.

Lemma set_status_same_is_noop_witness :
  set_status "A" "Reviewing"
    (create (sample_form "A") (sample_result "A" "- severity: High") 10 init_state).2
  = (inr tt,
     (create (sample_form "A") (sample_result "A" "- severity: High") 10 init_state).2).
Proof.
  apply (set_status_same_is_noop
           (create (sample_form "A") (sample_result "A" "- severity: High") 10
              init_state).2
           "A" (new_record (sample_form "A") (sample_result "A" "- severity: High") 10 1)).
  reflexivity.
Defined.

(** ** The review panel, the history and the script *)

Lemma strongly_sorted_filter {A} (R : A -> A -> Prop) (P : A -> Prop)
    `{!forall x, Decision (P x)} (l : list A) :
  StronglySorted R l -> StronglySorted R (filter P l).
Proof.
  induction 1 as [|x l Hl IH Hx]; [constructor|].
  rewrite filter_cons. destruct (decide (P x)); [|done].
  constructor; [done|]. apply Forall_forall. intros y [_ Hy]%list_elem_of_filter.
  rewrite Forall_forall in Hx. auto.
Qed.

(** X17: the history under the filter All is the whole listing; under
    another filter it holds the records whose priority is the filter word
    in capitals, still newest first; a record without a priority label,
    UNSPECIFIED, shows under none of High, Medium and Low. *)
Theorem history_claims_filter (priority_filter : string) (st : State) :
  history_claims "All" st = get_sorted_claims st /\
  (priority_filter <> "All" ->
   forall c, c ∈ history_claims priority_filter st <->
             Claim.priority c = upper priority_filter /\ c ∈ get_sorted_claims st) /\
  StronglySorted (reverse_order Claim.created_idx) (history_claims priority_filter st) /\
  (forall c, Claim.priority c = "UNSPECIFIED" ->
             priority_filter ∈ ["High"; "Medium"; "Low"] ->
             c ∉ history_claims priority_filter st).
Proof.
  split; [done|]. split; [|split].
  - intros Hne c. unfold history_claims.
    destruct (String.eqb_spec priority_filter "All"); [done|]. simpl.
    by rewrite list_elem_of_filter.
  - unfold history_claims. destruct (negb _).
    + apply strongly_sorted_filter, sorted_reverse_sorted.
    + apply sorted_reverse_sorted.
  - intros c Hc Hpf. unfold history_claims.
    repeat (apply elem_of_cons in Hpf as [->|Hpf]);
      [| | |by apply elem_of_nil in Hpf];
      simpl; intros [Hp _]%list_elem_of_filter; rewrite Hc in Hp; discriminate.
Qed.

Section ScriptFacts.

Variable endpoint : list Request -> Request -> ApiResult.

(** X18: the status buttons of the review panel act on the active claim
    through its record: Save as Reviewing assigns Reviewing, the records of
    the other ids are untouched, the selection, the draft and the send
    note are cleared; Start a New Claim clears them and changes no record. *)
Theorem review_buttons_effect (st : State) (cid : string) (c : Claim.t) :
  state_ok st -> active_claim_id st = Some cid -> cid <> "" ->
  get_claim cid st = Some c ->
  (exists st',
     render_claim_intelligence endpoint (Some SaveAsReviewing) st
       = (inr (Success ("Claim " +:+ cid +:+ " saved as Reviewing.")), st') /\
     get_claim cid st' = Some (Claim.with_status "Reviewing" c) /\
     (forall k, k <> cid -> get_claim k st' = get_claim k st) /\
     active_claim_id st' = None /\ customer_msg st' = "" /\ send_status st' = "") /\
  (exists st',
     render_claim_intelligence endpoint (Some StartANewClaim) st = (inr Silent, st') /\
     objects st' = objects st /\ claims_db st' = claims_db st /\
     next_idx st' = next_idx st /\
     active_claim_id st' = None /\ customer_msg st' = "" /\ send_status st' = "") /\
  render_claim_intelligence endpoint None st = (inr Silent, st).
Proof.
  intros Hok Hact Hne Hc.
  destruct (set_status_spec cid "Reviewing" st c Hok Hc) as (st1 & Hs & Hg & Ho & _).
  destruct (get_claim_ref _ _ _ Hc) as (ref & Hr & _).
  unfold render_claim_intelligence, bind, gets.
  rewrite Hact, Hr, (truthy_true _ Hne), bool_decide_true by eauto.
  cbn [negb orb]. rewrite Hs. split; [|split; [|done]].
  - eexists. split; [reflexivity|]. split; [exact Hg|]. split; [exact Ho|]. done.
  - eexists. split; [reflexivity|]. done.
Qed.

Lemma render_history_state (priority_filter : string) (clicked : option HistoryButton)
    (st : State) :
  (render_history priority_filter clicked st).2 =
    match clicked with
    | Some (OpenClaim cid) =>
        if bool_decide (cid ∈ card_ids (history_claims priority_filter st))
        then (open_claim cid st).2 else st
    | Some (DeleteClaim cid) =>
        if bool_decide (cid ∈ card_ids (history_claims priority_filter st))
        then (delete_claim cid st).2 else st
    | None => st
    end.
Proof.
  unfold render_history, bind, gets.
  destruct (history_claims priority_filter st) as [|c cs] eqn:Hh.
  - destruct clicked as [[cid|cid]|]; [| |done];
      rewrite bool_decide_false by apply not_elem_of_nil; done.
  - destruct clicked as [[cid|cid]|]; [| |done]; case_bool_decide; try done.
    by destruct (delete_claim cid st) as [[e|[]] st'].
Qed.

Lemma render_history_ok (priority_filter : string) (clicked : option HistoryButton)
    (st : State) :
  state_ok st -> state_ok (render_history priority_filter clicked st).2.
Proof.
  intros Hok. rewrite render_history_state.
  destruct clicked as [[cid|cid]|]; [| |done]; case_bool_decide; try done.
  by apply delete_spec.
Qed.

(** X19: the delete button of a history card never raises in a state in
    order: the claim of a listed card is in the store, the button takes out
    that record and no other; without such a card nothing happens. *)
Theorem render_history_delete (priority_filter cid : string) (st : State) :
  state_ok st ->
  exists st',
    render_history priority_filter (Some (DeleteClaim cid)) st
      = (inr (if bool_decide (history_claims priority_filter st = [])
              then Info "_No claims for this filter._" else Silent), st') /\
    state_ok st' /\
    (cid ∈ card_ids (history_claims priority_filter st) ->
     get_claim cid st' = None /\
     (forall k, k <> cid -> get_claim k st' = get_claim k st) /\
     active_claim_id st' = active_claim_id st) /\
    (cid ∉ card_ids (history_claims priority_filter st) -> st' = st).
Proof.
  intros Hok. unfold render_history, bind, gets.
  destruct (history_claims priority_filter st) as [|c0 cs] eqn:Hh.
  - exists st. rewrite bool_decide_true by done. split; [done|]. split; [done|].
    split; [by intros ?%elem_of_nil | done].
  - rewrite (bool_decide_false (c0 :: cs = [])) by done. case_bool_decide as Hin.
    + apply list_elem_of_fmap in Hin as (c & -> & Hc).
      assert (c ∈ get_sorted_claims st) as Hl.
      { rewrite <- Hh in Hc. unfold history_claims in Hc.
        destruct (negb _); [by apply list_elem_of_filter in Hc as [_ ?] | done]. }
      pose proof (listed_lookup st c Hok Hl) as Hg.
      destruct (get_claim_ref _ _ _ Hg) as (ref & Hr & _).
      destruct (delete_spec (Claim.id c) st Hok) as (Hok' & _ & Hnone & Hother).
      rewrite delete_claim_state in *.
      destruct (Dict.del (Claim.id c) (claims_db st)) as [db|] eqn:Hdel.
      * eexists. split; [reflexivity|]. split; [exact Hok'|]. split.
        -- intros _. split; [exact Hnone|]. split; [exact Hother | done].
        -- intros Hn. exfalso. apply Hn. by apply list_elem_of_fmap_2.
      * apply dict_del_None in Hdel. congruence.
    + exists st. split; [done|]. split; [done|]. split; [done | done].
Qed.

Lemma render_history_delete_witness :
  exists st',
    render_history "All" (Some (DeleteClaim "A"))
      (create (sample_form "A") (sample_result "A" "- severity: High") 10 init_state).2
    = (inr (if bool_decide
                 (history_claims "All"
                    (create (sample_form "A") (sample_result "A" "- severity: High") 10
                       init_state).2 = [])
            then Info "_No claims for this filter._" else Silent), st') /\
    state_ok st'.
Proof.
  destruct (render_history_delete "All" "A"
              (create (sample_form "A") (sample_result "A" "- severity: High") 10
                 init_state).2) as (st' & H1 & H2 & _).
  - apply (create_spec (sample_form "A") (sample_result "A" "- severity: High") 10
             init_state init_state_ok).
  - exists st'. split; assumption.
Defined.

Lemma main_state (priority_filter : string) (ev : Event) (now : Z) (st : State) :
  (main endpoint priority_filter ev now st).2 =
    match workspace_tab endpoint ev now st with
    | (inl _, st1) => st1
    | (inr _, st1) => (render_history priority_filter (history_click ev) st1).2
    end.
Proof.
  unfold main, bind.
  destruct (workspace_tab endpoint ev now st) as [[e|fb] st1]; [done|].
  by destruct (render_history priority_filter (history_click ev) st1) as [[e|fb'] st2].
Qed.

Lemma workspace_tab_ok (ev : Event) (now : Z) (st : State) :
  state_ok st -> state_ok (workspace_tab endpoint ev now st).2.
Proof.
  intros Hok. unfold workspace_tab, bind, gets.
  destruct (active_claim_id st); [by apply render_claim_intelligence_ok|].
  destruct ev; try done. by apply main_submitted_ok.
Qed.

Lemma main_ok (priority_filter : string) (ev : Event) (now : Z) (st : State) :
  state_ok st -> state_ok (main endpoint priority_filter ev now st).2.
Proof.
  intros Hok. rewrite main_state. pose proof (workspace_tab_ok ev now st Hok) as H.
  destruct (workspace_tab endpoint ev now st) as [[e|fb] st1]; simpl in H; [done|].
  by apply render_history_ok.
Qed.

Lemma run_pipeline_next_idx (f : Form.t) (st : State) :
  next_idx (run_pipeline endpoint f st).2 = next_idx st.
Proof.
  pose proof (run_pipeline_session endpoint f st) as H. unfold session in H.
  by injection H.
Qed.

(** The three ways a submission ends. *)
Lemma main_submitted_cases (f : Form.t) (now : Z) (st : State) :
  main_submitted endpoint f now st =
    if (negb (PyStr.truthy (PyStr.strip (Form.description f)))
        || negb (PyStr.truthy (PyStr.strip (Form.customer_name f))))%bool
    then (inr (Error fill_fields_message), st)
    else
      match run_pipeline endpoint f st with
      | (inl e, st1) => (inl e, st1)
      | (inr r, st1) =>
          (inr (Success ("Analysis completed for claim " +:+ Form.claim_id f
                         +:+ ". Scroll down to view details.")),
           set_send_status "" (set_customer_msg ""
             (set_active_claim_id (Some (Form.claim_id f)) (create f r now st1).2)))
      end.
Proof.
  unfold main_submitted. destruct (negb _ || negb _)%bool; [done|].
  unfold bind at 1. fold (run_pipeline endpoint f).
  by destruct (run_pipeline endpoint f st) as [[e|r] st1].
Qed.

Lemma main_submitted_next_idx (f : Form.t) (now : Z) (st : State) :
  next_idx (main_submitted endpoint f now st).2 =
    match (main_submitted endpoint f now st).1 with
    | inr (Success _) => next_idx st + 1
    | _ => next_idx st
    end.
Proof.
  rewrite main_submitted_cases. destruct (negb _ || negb _)%bool; [done|].
  pose proof (run_pipeline_next_idx f st) as H.
  destruct (run_pipeline endpoint f st) as [[e|r] st1]; simpl in *; [done|].
  by rewrite H.
Qed.

Lemma render_claim_intelligence_next_idx (clicked : option ReviewButton) (st : State) :
  next_idx (render_claim_intelligence endpoint clicked st).2 = next_idx st.
Proof.
  unfold render_claim_intelligence, bind, gets.
  destruct (active_claim_id st) as [cid|]; [|done].
  destruct (negb _ || negb _)%bool; [done|].
  destruct clicked as [[]|]; try done.
  - destruct (get_claim cid st) as [c|]; [|done].
    unfold customer_message_agent_groq. rewrite call_groq_eq.
    by destruct (completion_text _).
  - by destruct (PyStr.truthy (customer_msg st)).
  - rewrite set_status_state. by destruct (Dict.get cid (claims_db st)).
  - rewrite set_status_state. by destruct (Dict.get cid (claims_db st)).
Qed.

Lemma render_history_next_idx (priority_filter : string)
    (clicked : option HistoryButton) (st : State) :
  next_idx (render_history priority_filter clicked st).2 = next_idx st.
Proof.
  rewrite render_history_state.
  destruct clicked as [[cid|cid]|]; [| |done]; case_bool_decide; try done.
  rewrite delete_claim_state. by destruct (Dict.del cid (claims_db st)).
Qed.

Lemma main_next_idx (priority_filter : string) (ev : Event) (now : Z) (st : State) :
  next_idx st <= next_idx (main endpoint priority_filter ev now st).2 <= next_idx st + 1.
Proof.
  rewrite main_state. unfold workspace_tab, bind, gets.
  destruct (active_claim_id st) as [cid|].
  - pose proof (render_claim_intelligence_next_idx (review_click ev) st) as H.
    destruct (render_claim_intelligence endpoint (review_click ev) st) as [[e|fb] st1];
      simpl in H; [lia|]. rewrite render_history_next_idx. lia.
  - destruct ev as [f|b|b|]; simpl; try (rewrite render_history_next_idx; simpl; lia).
    pose proof (main_submitted_next_idx f now st) as H.
    destruct (main_submitted endpoint f now st) as [[e|fb] st1]; simpl in H; [lia|].
    rewrite render_history_next_idx. destruct fb; lia.
Qed.

(** X20: whatever the user does and whatever the endpoint answers, every
    state of a session is in order, and the counter of creation indices is
    never negative and at most the number of runs so far. *)
Theorem session_states_in_order (evs : list (string * Event * Z)) :
  state_ok (run_events endpoint evs init_state) /\
  0 <= next_idx (run_events endpoint evs init_state) <= Z.of_nat (length evs).
Proof.
  assert (forall st, state_ok st ->
            state_ok (run_events endpoint evs st) /\
            next_idx st <= next_idx (run_events endpoint evs st)
              <= next_idx st + Z.of_nat (length evs)) as H.
  { induction evs as [|[[pf ev] now] evs IH]; intros st Hok.
    - simpl. split; [done | lia].
    - change (run_events endpoint ((pf, ev, now) :: evs) st)
        with (run_events endpoint evs (main endpoint pf ev now st).2).
      destruct (IH _ (main_ok pf ev now st Hok)) as [Hok' Hn].
      split; [done|]. pose proof (main_next_idx pf ev now st).
      cbn [length]. lia. }
  destruct (H init_state init_state_ok) as [Hok Hn]. split; [done|]. simpl in Hn. lia.
Qed.

End ScriptFacts.

Section ScriptLocks.

Variable endpoint : list Request -> Request -> ApiResult.

Lemma render_history_none (priority_filter : string) (st : State) :
  render_history priority_filter None st
    = (inr (if bool_decide (history_claims priority_filter st = [])
            then Info "_No claims for this filter._" else Silent), st).
Proof.
  unfold render_history, bind, gets.
  by destruct (history_claims priority_filter st).
Qed.

(** A selection that is empty or not a key shuts the workspace: the form is
    not shown and the panel has no buttons. *)
Lemma stale_selection (priority_filter : string) (ev : Event) (now : Z)
    (st : State) (cid : string) :
  active_claim_id st = Some cid ->
  cid = "" \/ cid ∉ Dict.keys (claims_db st) ->
  history_click ev = None ->
  main endpoint priority_filter ev now st
    = (inr (Info no_active_claim,
            if bool_decide (history_claims priority_filter st = [])
            then Info "_No claims for this filter._" else Silent), st).
Proof.
  intros Hact Hstale Hev.
  assert (workspace_tab endpoint ev now st = (inr (Info no_active_claim), st)) as Hw.
  { unfold workspace_tab, bind, gets. rewrite Hact.
    unfold render_claim_intelligence, bind, gets. rewrite Hact.
    destruct Hstale as [-> | Hk]; [done|].
    apply dict_get_None in Hk. rewrite Hk.
    rewrite (bool_decide_false (is_Some None)) by (by intros [? ?]).
    by rewrite orb_true_r. }
  unfold main, bind. by rewrite Hw, Hev, render_history_none.
Qed.

Lemma get_claim_None_key (st : State) (cid : string) :
  state_ok st -> get_claim cid st = None -> cid ∉ Dict.keys (claims_db st).
Proof.
  intros [_ _ He _] Hg. apply dict_get_None. unfold get_claim, deref in Hg.
  destruct (Dict.get cid (claims_db st)) as [ref|] eqn:Hr; [|done].
  apply dict_get_elem_of in Hr. rewrite Forall_forall in He.
  destruct (He _ Hr) as (c & Hc & _). simpl in Hc. congruence.
Qed.


(** X22: deleting the claim that is under review shuts the workspace.  The
    delete button of the history leaves the selection as it is; the id is
    then no key any more, and a run without a click in the history shows
    the notice of no active claim and changes nothing. *)
Theorem deleting_active_claim_locks_workspace (now : Z) (st : State) (cid : string)
    (c : Claim.t) :
  state_ok st -> active_claim_id st = Some cid -> get_claim cid st = Some c ->
  active_claim_id (main endpoint "All" (HistoryClicked (DeleteClaim cid)) now st).2
    = Some cid /\
  get_claim cid (main endpoint "All" (HistoryClicked (DeleteClaim cid)) now st).2 = None /\
  (forall priority_filter ev now',
     history_click ev = None ->
     exists fb,
       main endpoint priority_filter ev now'
         (main endpoint "All" (HistoryClicked (DeleteClaim cid)) now st).2
       = (inr (Info no_active_claim, fb),
          (main endpoint "All" (HistoryClicked (DeleteClaim cid)) now st).2)).
Proof.
  intros Hok Hact Hc.
  destruct (get_claim_only _ _ _ Hok Hc) as (_ & Hid & _).
  destruct (delete_spec cid st Hok) as (Hok' & _ & Hnone & _).
  assert ((main endpoint "All" (HistoryClicked (DeleteClaim cid)) now st).2
          = (delete_claim cid st).2) as ->.
  { rewrite main_state.
    assert (exists r, workspace_tab endpoint (HistoryClicked (DeleteClaim cid)) now st
                      = (inr r, st)) as [r Hr].
    { unfold workspace_tab, bind, gets. rewrite Hact.
      unfold render_claim_intelligence, bind, gets. rewrite Hact.
      destruct (negb _ || negb _)%bool; eauto. }
    rewrite Hr, render_history_state. cbn [history_click].
    rewrite bool_decide_true; [done|].
    apply list_elem_of_fmap. exists c. split; [done|].
    by apply (lookup_listed st cid). }
  assert (active_claim_id (delete_claim cid st).2 = Some cid) as Ha.
  { rewrite delete_claim_state. by destruct (Dict.del cid (claims_db st)). }
  split; [done|]. split; [done|].
  intros pf ev now' Hev. eexists. apply (stale_selection _ _ _ _ cid); [done| |done].
  right. by apply get_claim_None_key.
Qed.

End ScriptLocks.


(** ** The proposed claim id *)

Lemma nzhead_zero_fill (w : nat) (d : Decimal.uint) :
  Decimal.nzhead (zero_fill w d) = Decimal.nzhead d.
Proof.
  unfold zero_fill. generalize (w - Decimal.nb_digits d)%nat. intros k.
  induction k as [|k IH]; [done|]. exact IH.
Qed.

Lemma format_03d_int (n : Z) :
  format_03d n =
    NilEmpty.string_of_int
      match Z.to_int n with
      | Decimal.Pos d => Decimal.Pos (zero_fill 3 d)
      | Decimal.Neg d => Decimal.Neg (zero_fill 2 d)
      end.
Proof. unfold format_03d. by destruct (Z.to_int n). Qed.

Lemma format_03d_inj (a b : Z) : format_03d a = format_03d b -> a = b.
Proof.
  rewrite !format_03d_int. intros H.
  apply (f_equal NilEmpty.int_of_string) in H. rewrite !NilEmpty.isi in H.
  injection H as H.
  rewrite <- (DecimalZ.of_to a), <- (DecimalZ.of_to b). apply DecimalZ.of_iff.
  destruct (Z.to_int a) as [da|da], (Z.to_int b) as [db|db];
    apply (f_equal Decimal.norm) in H; unfold Decimal.norm, Decimal.unorm in *;
    rewrite !nzhead_zero_fill in H; exact H.
Qed.

Lemma append_inj_l (p a b : string) : p +:+ a = p +:+ b -> a = b.
Proof. induction p as [|c p IH]; simpl; [done|]. intros [= H]. auto. Qed.

(** X23: the id the form proposes tells the counter: two states with
    different counters are proposed different ids, whatever the sign and
    the size of the counters. *)
Theorem suggested_claim_id_inj (st1 st2 : State) :
  suggested_claim_id st1 = suggested_claim_id st2 -> next_idx st1 = next_idx st2.
Proof.
  unfold suggested_claim_id. intros H%append_inj_l%format_03d_inj. lia.
Qed.

Lemma suggested_claim_id_inj_witness :
  suggested_claim_id init_state = "CLM-001" /\
  next_idx (set_next_idx 0 (set_send_status "sent" init_state)) = next_idx init_state.
Proof.
  split; [reflexivity|].
  apply (suggested_claim_id_inj (set_next_idx 0 (set_send_status "sent" init_state))
           init_state).
  reflexivity.
Defined.

Lemma dict_set_keys {V} (k k' : string) (v : V) (d : list (string * V)) :
  k' ∈ Dict.keys (Dict.set k v d) -> k' = k \/ k' ∈ Dict.keys d.
Proof.
  destruct (dict_set_spec k v d) as [[_ ->] | (d1 & v0 & d2 & -> & _ & ->)];
    unfold Dict.keys; rewrite !fmap_app, !elem_of_app; simpl;
    rewrite !elem_of_cons; [rewrite elem_of_nil|]; tauto.
Qed.

Lemma dict_del_keys {V} (k k' : string) (d d' : list (string * V)) :
  Dict.del k d = Some d' -> k' ∈ Dict.keys d' -> k' ∈ Dict.keys d.
Proof.
  intros (d1 & v0 & d2 & -> & _ & ->)%dict_del_Some.
  unfold Dict.keys. rewrite !fmap_app, !elem_of_app. simpl. rewrite elem_of_cons. tauto.
Qed.

Lemma apply_op_keys_proposed (st : State) (op : StoreOp) :
  keys_proposed st ->
  match op with
  | Create f _ _ => Form.claim_id f = suggested_claim_id st
  | _ => True
  end ->
  keys_proposed (apply_op st op).
Proof.
  intros HJ Hop k. destruct op as [f r now|cid|cid v]; unfold apply_op; simpl.
  - intros [->|Hk]%dict_set_keys.
    + exists (next_idx st + 1). split; [lia | done].
    + destruct (HJ k Hk) as (i & Hi & ->). exists i. split; [lia | done].
  - rewrite delete_claim_state.
    destruct (Dict.del cid (claims_db st)) as [db|] eqn:Hdel; simpl; [|apply HJ].
    intros Hk. apply HJ. by apply (dict_del_keys cid k _ db).
  - rewrite set_status_state.
    destruct (Dict.get cid (claims_db st)); simpl; apply HJ.
Qed.

Lemma apply_ops_keys_proposed (ops : list StoreOp) (st : State) :
  keys_proposed st -> files_suggested ops st -> keys_proposed (apply_ops ops st).
Proof.
  revert st. induction ops as [|op ops IH]; intros st HJ Hf; [done|].
  destruct Hf as [Hop Hf]. simpl. apply IH; [|done]. by apply apply_op_keys_proposed.
Qed.

(** X24: in a session whose claims are all filed under the proposed id, the
    id proposed next is never taken, whatever was deleted in between: no
    create of such a session overwrites a record. *)
Theorem suggested_claim_id_free (ops : list StoreOp) :
  files_suggested ops init_state ->
  (suggested_claim_id (apply_ops ops init_state)
     ∉ Dict.keys (claims_db (apply_ops ops init_state))) /\
  get_claim (suggested_claim_id (apply_ops ops init_state)) (apply_ops ops init_state)
    = None.
Proof.
  intros Hf.
  assert (keys_proposed init_state) as H0 by (intros k Hk; by apply elem_of_nil in Hk).
  pose proof (apply_ops_keys_proposed ops init_state H0 Hf) as HJ.
  assert (suggested_claim_id (apply_ops ops init_state)
            ∉ Dict.keys (claims_db (apply_ops ops init_state))) as Hfree.
  { intros Hk. destruct (HJ _ Hk) as (i & Hi & Heq).
    unfold suggested_claim_id in Heq.
    apply append_inj_l, format_03d_inj in Heq. lia. }
  split; [done|]. unfold get_claim. apply dict_get_None in Hfree. by rewrite Hfree.
Qed.

Lemma suggested_claim_id_free_witness :
  get_claim "CLM-003"
    (apply_ops [Create (sample_form "CLM-001") (sample_result "CLM-001" "- severity: High") 10;
                Create (sample_form "CLM-002") (sample_result "CLM-002" "- severity: Low") 20;
                Delete "CLM-002"]
       init_state) = None.
Proof.
  apply (suggested_claim_id_free
           [Create (sample_form "CLM-001") (sample_result "CLM-001" "- severity: High") 10;
            Create (sample_form "CLM-002") (sample_result "CLM-002" "- severity: Low") 20;
            Delete "CLM-002"]).
  repeat split.
Defined.

(** ** The priority chip *)




(** ** Instances *)




Lemma review_buttons_effect_witness :
  render_claim_intelligence steady_endpoint None
    (set_active_claim_id (Some "A")
       (create (sample_form "A") (sample_result "A" "- severity: High") 10 init_state).2)
  = (inr Silent,
     set_active_claim_id (Some "A")
       (create (sample_form "A") (sample_result "A" "- severity: High") 10 init_state).2).
Proof.
  apply (review_buttons_effect steady_endpoint
           (set_active_claim_id (Some "A")
              (create (sample_form "A") (sample_result "A" "- severity: High") 10
                 init_state).2)
           "A" (new_record (sample_form "A") (sample_result "A" "- severity: High") 10 1)).
  - apply (state_ok_store
             (create (sample_form "A") (sample_result "A" "- severity: High") 10
                init_state).2); [reflexivity..|].
    apply (create_spec (sample_form "A") (sample_result "A" "- severity: High") 10
             init_state init_state_ok).
  - reflexivity.
  - discriminate.
  - reflexivity.
Defined.

Lemma deleting_active_claim_locks_workspace_witness :
  get_claim "A"
    (main steady_endpoint "All" (HistoryClicked (DeleteClaim "A")) 20
       (set_active_claim_id (Some "A")
          (create (sample_form "A") (sample_result "A" "- severity: High") 10
             init_state).2)).2 = None.
Proof.
  apply (deleting_active_claim_locks_workspace steady_endpoint 20
           (set_active_claim_id (Some "A")
              (create (sample_form "A") (sample_result "A" "- severity: High") 10
                 init_state).2)
           "A" (new_record (sample_form "A") (sample_result "A" "- severity: High") 10 1)).
  - apply (state_ok_store
             (create (sample_form "A") (sample_result "A" "- severity: High") 10
                init_state).2); [reflexivity..|].
    apply (create_spec (sample_form "A") (sample_result "A" "- severity: High") 10
             init_state init_state_ok).
  - reflexivity.
  - reflexivity.
Defined.
